(** * Multilingual query handler: shallow embedding and verified properties

    The program is a single Python module.  Its decision logic lives in
    [get_active_model], [detect_language], [call_groq_api],
    [translate_to_english] and [TranslationMetrics.show_summary]; the rest is
    console output, which is not modelled.

    Conventions of the embedding:
    - a Python [str] is the list of its Unicode code points ([pystr]);
    - a Python [float] is kept by its exact value, a rational ([Q]); every
      float constant of the program (60, 80.0, 90.0, 95.0, 100.0, 15) is an
      integer, on which double arithmetic is exact; where the program does
      arithmetic that rounds -- the sums and divisions of the metrics
      summary -- it is done on IEEE 754 doubles ([PrimFloat.float]);
    - an expression that can raise evaluates to a [result];
    - the module-level variable [ACTIVE_MODEL] and the requests sent to the
      remote service live in an explicit [world] that is threaded through
      the calls. *)

From Stdlib Require Import Ascii String.
From Stdlib Require Import List ZArith NArith QArith Bool Lia.
From Stdlib Require Floats.PrimFloat Floats.SpecFloat Floats.FloatOps.
From Stdlib Require Import Sorting.Sorted Sorting.Permutation.
From Stdlib Require Import DecimalString.
Import ListNotations.

(* ================================================================== *)
(** ** Python strings *)
(* ================================================================== *)

Module PyStr.

Definition pystr := list N.

(** An ASCII literal as a Python string. *)
Definition lit (s : string) : pystr :=
  map N_of_ascii (list_ascii_of_string s).

Fixpoint eqb (a b : pystr) : bool :=
  match a, b with
  | [], [] => true
  | x :: a', y :: b' => N.eqb x y && eqb a' b'
  | _, _ => false
  end.

(** [x in l] for a list of strings. *)
Definition mem (x : pystr) (l : list pystr) : bool := existsb (eqb x) l.

(** [p in s] for strings: [p] occurs in [s] as a contiguous substring. *)
Fixpoint startswith (s p : pystr) : bool :=
  match p, s with
  | [], _ => true
  | _ :: _, [] => false
  | a :: p', b :: s' => N.eqb a b && startswith s' p'
  end.

Fixpoint contains (s p : pystr) : bool :=
  startswith s p ||
  match s with
  | [] => false
  | _ :: s' => contains s' p
  end.

(** [str.isspace] on one code point: the code points Python's [strip] and
    [split] (called without argument) treat as whitespace. *)
Definition isspace (c : N) : bool :=
  (((0x09 <=? c) && (c <=? 0x0D)) || ((0x1C <=? c) && (c <=? 0x20))
  || (c =? 0x85) || (c =? 0xA0) || (c =? 0x1680)
  || ((0x2000 <=? c) && (c <=? 0x200A))
  || (c =? 0x2028) || (c =? 0x2029) || (c =? 0x202F) || (c =? 0x205F)
  || (c =? 0x3000))%N.

Fixpoint lstrip (s : pystr) : pystr :=
  match s with
  | [] => []
  | c :: s' => if isspace c then lstrip s' else s
  end.

Definition rstrip (s : pystr) : pystr := rev (lstrip (rev s)).

(** [s.strip()] *)
Definition strip (s : pystr) : pystr := rstrip (lstrip s).

(** [s.split()]: the maximal runs of non-whitespace code points.  [cur] is
    the run being read, kept reversed. *)
Fixpoint split_from (cur : pystr) (s : pystr) : list pystr :=
  match s with
  | [] => match cur with [] => [] | _ => [rev cur] end
  | c :: s' =>
      if isspace c
      then match cur with
           | [] => split_from [] s'
           | _ => rev cur :: split_from [] s'
           end
      else split_from (c :: cur) s'
  end.

Definition split (s : pystr) : list pystr := split_from [] s.

(** [re.search("[lo-hi]", s)] is not [None]. *)
Definition re_search_range (lo hi : N) (s : pystr) : bool :=
  existsb (fun c => (lo <=? c)%N && (c <=? hi)%N) s.

(** [str(n)] for an [int]. *)
Definition str_of_Z (n : Z) : pystr :=
  lit (NilZero.string_of_int (Z.to_int n)).

End PyStr.
Import PyStr.

(* ================================================================== *)
(** ** Exceptions *)
(* ================================================================== *)

(** What the program distinguishes about an exception: whether it is a
    [requests.exceptions.RequestException] (carrying its [str(e)]) or not. *)
Inductive exn :=
| RequestException (str_e : pystr)
| OtherException (str_e : pystr).

Inductive result (A : Type) :=
| Val (a : A)
| Exc (e : exn).
Arguments Val {A} a.
Arguments Exc {A} e.

(* ================================================================== *)
(** ** Configuration *)
(* ================================================================== *)

Definition MODEL : pystr := lit "llama-3.3-70b-versatile".

Definition FALLBACK_MODELS : list pystr :=
  [ lit "llama3-70b-8192"; lit "gemma2-9b-it"; lit "mixtral-8x7b-32768" ].

(** [FALLBACK_MODELS[0]]; the literal list is not empty, so the index never
    raises ([FALLBACK_MODELS_first]). *)
Definition FALLBACK_MODELS_0 : pystr := hd [] FALLBACK_MODELS.

Definition LANGUAGE_NAMES : list (pystr * pystr) :=
  [ (lit "en", lit "English"); (lit "es", lit "Spanish");
    (lit "hi", lit "Hindi"); (lit "mr", lit "Marathi");
    (lit "fr", lit "French"); (lit "de", lit "German");
    (lit "it", lit "Italian"); (lit "pt", lit "Portuguese");
    (lit "ja", lit "Japanese"); (lit "ko", lit "Korean");
    (lit "zh", lit "Chinese"); (lit "ru", lit "Russian");
    (lit "ar", lit "Arabic"); (lit "bn", lit "Bengali");
    (lit "ta", lit "Tamil"); (lit "te", lit "Telugu") ].

(** [d.get(k, default)] on a dict kept as an association list in insertion
    order. *)
Fixpoint dict_get {V : Type} (d : list (pystr * V)) (k : pystr) (default : V) : V :=
  match d with
  | [] => default
  | (k', v) :: d' => if eqb k' k then v else dict_get d' k default
  end.

(* ================================================================== *)
(** ** Model validation and fallback: [get_active_model] *)
(* ================================================================== *)

(** The outcome of [requests.get(".../models")], as far as the function
    looks at it.  [ids] is the value of
    [[m['id'] for m in response.json().get('data', [])]], which raises when
    the body is not JSON or an entry has no [id]; the function evaluates it
    only when the status is 200. *)
Inductive get_outcome :=
| GetRaises (e : exn)
| GetResponse (status_code : Z) (ids : result (list pystr)).

(** The [for fb in FALLBACK_MODELS] loop: the first fallback in [available]. *)
Definition first_available (available : list pystr) : option pystr :=
  find (fun fb => mem fb available) FALLBACK_MODELS.

Definition get_active_model (probe : get_outcome) : pystr :=
  match probe with
  | GetRaises _ => FALLBACK_MODELS_0
  | GetResponse status_code ids =>
      if negb (status_code =? 200)%Z then MODEL
      else match ids with
           | Exc _ => FALLBACK_MODELS_0
           | Val available =>
               if mem MODEL available then MODEL
               else match first_available available with
                    | Some fb => fb
                    | None => FALLBACK_MODELS_0
                    end
           end
  end.

(* ================================================================== *)
(** ** Language detection: [detect_language] *)
(* ================================================================== *)

Definition hindi_markers : list pystr :=
  [ [0x0939; 0x0948]; [0x0939; 0x0948; 0x0902]; [0x0915; 0x093E];
    [0x0915; 0x0940]; [0x0915; 0x0947]; [0x092E; 0x0947; 0x0902];
    [0x0915; 0x094B]; [0x0938; 0x0947]; [0x0928; 0x0947];
    [0x0914; 0x0930]; [0x092F; 0x093E]; [0x0939; 0x094B];
    [0x0939; 0x0947] ]%N.

Definition marathi_markers : list pystr :=
  [ [0x0906; 0x0939; 0x0947]; [0x0906; 0x0939; 0x0947; 0x0924];
    [0x091A; 0x094D; 0x092F; 0x093E]; [0x0932; 0x093E];
    [0x0928; 0x0947]; [0x092E; 0x0927; 0x094D; 0x092F; 0x0947];
    [0x0906; 0x0923; 0x093F]; [0x0915; 0x093F; 0x0902; 0x0935; 0x093E] ]%N.

(** [sum(1 for marker in markers if marker in text)] *)
Definition marker_count (markers : list pystr) (text : pystr) : nat :=
  length (filter (fun marker => contains text marker) markers).

Definition hindi_count (text : pystr) : nat := marker_count hindi_markers text.
Definition marathi_count (text : pystr) : nat := marker_count marathi_markers text.

Definition has_cyrillic := re_search_range 0x0400%N 0x04FF%N.
Definition has_chinese := re_search_range 0x4E00%N 0x9FFF%N.
Definition has_korean := re_search_range 0xAC00%N 0xD7AF%N.
Definition has_japanese := re_search_range 0x3040%N 0x30FF%N.
Definition has_devanagari := re_search_range 0x0900%N 0x097F%N.

Section Detection.

(** [langdetect.detect], made deterministic by [DetectorFactory.seed = 0]:
    a language code, or an exception on text it cannot classify. *)
Variable detect : pystr -> result pystr.

(** The Devanagari branch once the marker counts have not decided. *)
Definition devanagari_fallback (text : pystr) : result pystr :=
  match detect text with
  | Val detected =>
      Val (if mem detected [lit "hi"; lit "mr"] then detected else lit "hi")
  | Exc _ => Val (lit "hi")
  end.

Definition detect_language (text : pystr) : result pystr :=
  match strip text with
  | [] => Val (lit "en")
  | _ :: _ =>
      if has_cyrillic text then Val (lit "ru")
      else if has_chinese text then Val (lit "zh")
      else if has_korean text then Val (lit "ko")
      else if has_japanese text then Val (lit "ja")
      else if has_devanagari text then
        let hindi_count := hindi_count text in
        let marathi_count := marathi_count text in
        if (hindi_count <? marathi_count)%nat && (0 <? marathi_count)%nat
        then Val (lit "mr")
        else if (0 <? hindi_count)%nat then Val (lit "hi")
        else devanagari_fallback text
      else match detect text with
           | Val code => Val code
           | Exc _ => Val (lit "en")
           end
  end.

End Detection.

(* ================================================================== *)
(** ** The remote completion call: [call_groq_api] *)
(* ================================================================== *)

Record message := { role : pystr; content : pystr }.

(** The [payload] dict of one request. *)
Record payload := {
  model : pystr;
  messages : list message;
  max_tokens : Z;
  temperature : Q;
  top_p : Q
}.

(** The dict built at lines 182-188. *)
Definition new_payload (active_model : pystr) (messages : list message)
                       (max_tokens : Z) : payload :=
  {| model := active_model; messages := messages; max_tokens := max_tokens;
     temperature := 3 # 10; top_p := 9 # 10 |}.

(** [payload["model"] = m] *)
Definition set_model (p : payload) (m : pystr) : payload :=
  {| model := m; messages := messages p; max_tokens := max_tokens p;
     temperature := temperature p; top_p := top_p p |}.

(** What the function reads from a response.  [choice_content] is the value
    of [response.json()["choices"][0]["message"]["content"]] and
    [error_message] the value of
    [response.json().get("error", {}).get("message", "")]; either raises
    when the body does not have that shape. *)
Record response := {
  status_code : Z;
  choice_content : result pystr;
  error_message : result pystr
}.

Inductive post_outcome :=
| PostRaises (e : exn)
| PostResponse (r : response).

(** The process-wide state: the global [ACTIVE_MODEL], and the requests
    posted so far, oldest first. *)
Record world := {
  ACTIVE_MODEL : pystr;
  sent : list payload
}.

(** Computations that read and write the world and may raise. *)
Definition M (A : Type) := world -> result A * world.

Definition ret {A} (a : A) : M A := fun w => (Val a, w).

Definition bind {A B} (c : M A) (k : A -> M B) : M B :=
  fun w => match c w with
           | (Val a, w') => k a w'
           | (Exc e, w') => (Exc e, w')
           end.

Notation "x <- c ;; k" := (bind c (fun x => k))
  (at level 61, c at next level, right associativity).

(** How one pass through the body of the [for attempt in range(3)] loop
    ends: by [return], or by going to the next iteration with the payload as
    it now is. *)
Inductive flow :=
| Return (text : pystr)
| Next (p : payload).

(** The message test of the decommission branch. *)
Definition model_invalid (msg : pystr) : bool :=
  contains msg (lit "decommissioned") || contains msg (lit "not found").

Section Remote.

(** The remote service: the outcome of the [n]-th [requests.post] of the
    session (counted from 0), given the payload it carries. *)
Variable net : nat -> payload -> post_outcome.

(** [requests.post(GROQ_API_URL, headers=headers, json=payload, timeout=30)] *)
Definition post (p : payload) : M response :=
  fun w =>
    let w' := {| ACTIVE_MODEL := ACTIVE_MODEL w; sent := sent w ++ [p] |} in
    match net (List.length (sent w)) p with
    | PostRaises e => (Exc e, w')
    | PostResponse r => (Val r, w')
    end.

(** Evaluating an expression that may raise. *)
Definition eval {A} (r : result A) : M A := fun w => (r, w).

(** [ACTIVE_MODEL = m] *)
Definition set_ACTIVE_MODEL (m : pystr) : M unit :=
  fun w => (Val tt, {| ACTIVE_MODEL := m; sent := sent w |}).

(** The statements after the [if] chain: the error is printed and the
    function returns [f"API Error: {response.status_code}"]. *)
Definition api_error (r : response) : M flow :=
  ret (Return (lit "API Error: " ++ str_of_Z (status_code r))).

(** The body of the [try]. *)
Definition try_body (p : payload) : M flow :=
  r <- post p ;;
  if (status_code r =? 200)%Z then
    text <- eval (choice_content r) ;;
    ret (Return (strip text))
  else if (status_code r =? 400)%Z then
    msg <- eval (error_message r) ;;
    if model_invalid msg then
      _ <- set_ACTIVE_MODEL FALLBACK_MODELS_0 ;;
      ret (Next (set_model p FALLBACK_MODELS_0))
    else api_error r
  else api_error r.

(** One iteration: the [try] with its
    [except requests.exceptions.RequestException as e] clause.  Any other
    exception leaves the function. *)
Definition attempt_body (attempt : nat) (p : payload) : M flow :=
  fun w =>
    match try_body p w with
    | (Exc (RequestException str_e), w') =>
        if (attempt =? 2)%nat
        then (Val (Return (lit "Network Error: " ++ str_e)), w')
        else (Val (Next p), w')
    | other => other
    end.

(** [for attempt in attempts: ...] followed by the final [return]. *)
Fixpoint retry_loop (attempts : list nat) (p : payload) : M pystr :=
  match attempts with
  | [] => ret (lit "API Error: Failed after retries")
  | attempt :: rest =>
      f <- attempt_body attempt p ;;
      match f with
      | Return text => ret text
      | Next p' => retry_loop rest p'
      end
  end.

Definition call_groq_api (messages : list message) (max_tokens : Z) : M pystr :=
  fun w =>
    let payload := new_payload (ACTIVE_MODEL w) messages max_tokens in
    retry_loop (seq 0 3) payload w.

(* ================================================================== *)
(** ** Translation engine and response generator *)
(* ================================================================== *)

(** [str.lower] and [str.upper] of the Python runtime. *)
Variable lower : pystr -> pystr.
Variable upper : pystr -> pystr.

(** [max(a, b)]: Python returns [b] only when [b > a]. *)
Definition py_max (a b : Q) : Q := if Qle_bool b a then a else b.

(** Lines 237-242: the confidence before the penalty. *)
Definition word_confidence (translation : pystr) : Q :=
  let confidence := 80 in
  let words := List.length (split translation) in
  let confidence := if (3 <=? words)%nat then 90 else confidence in
  let confidence := if (6 <=? words)%nat then 95 else confidence in
  confidence.

(** The test of line 243. *)
Definition leaked_error (translation : pystr) : bool :=
  existsb (fun x => contains (lower translation) x)
          [lit "error"; lit "failed"; lit "http"].

(** Lines 243-244. *)
Definition penalty (translation : pystr) (confidence : Q) : Q :=
  if leaked_error translation then py_max (confidence - 15) 60
  else confidence.

Definition translation_messages (text lang_name : pystr) : list message :=
  [ {| role := lit "system";
       content := lit "You are a professional translator for customer support. Translate accurately, naturally, and preserve intent, tone, and technical terms." |};
    {| role := lit "user";
       content := lit "Translate this " ++ lang_name
                  ++ lit " customer message to clear, natural English. Output ONLY the translation."
                  ++ [10; 10]%N ++ lit "Text: " ++ text |} ].

Definition translate_to_english (text lang_code : pystr) : M (pystr * Q) :=
  if eqb lang_code (lit "en") then ret (strip text, 100)
  else
    let lang_name := dict_get LANGUAGE_NAMES lang_code (upper lang_code) in
    let messages := translation_messages text lang_name in
    translation <- call_groq_api messages 300 ;;
    ret (translation, penalty translation (word_confidence translation)).

Definition generate_support_response (english_query : pystr) : M pystr :=
  let messages :=
    [ {| role := lit "system";
         content := lit "You are a helpful, empathetic customer support agent. Be clear, concise, and provide actionable steps." |};
      {| role := lit "user";
         content := lit "Customer says: " ++ english_query ++ [10; 10]%N
                    ++ lit "Respond professionally in 2-4 sentences with clear next steps." |} ] in
  call_groq_api messages 400.

End Remote.

(* ================================================================== *)
(** ** Metrics tracking: [TranslationMetrics] *)
(* ================================================================== *)

Module TranslationMetrics.

(** One entry of [self.queries]. *)
Record query := {
  timestamp : pystr;
  language : pystr;
  original : pystr;
  translation : pystr;
  confidence : Q;
  response_time : Q
}.

(** The object: [self.queries] and [self.start_time] (microseconds). *)
Record t := {
  queries : list query;
  start_time : Z
}.

Definition init (now : Z) : t := {| queries := []; start_time := now |}.

(** [log_query]; [stamp] is the formatted [datetime.now()]. *)
Definition log_query (self : t) (stamp original_lang original_text
                      english_translation : pystr)
                     (confidence response_time : Q) : t :=
  {| queries := queries self ++
       [ {| timestamp := stamp;
            language := original_lang;
            original := firstn 100 original_text;
            translation := firstn 100 english_translation;
            confidence := confidence;
            response_time := response_time |} ];
     start_time := start_time self |}.

(** [d[k] = v] on an insertion-ordered dict: an existing key keeps its
    place, a new key goes last. *)
Fixpoint dict_set {V : Type} (d : list (pystr * V)) (k : pystr) (v : V)
  : list (pystr * V) :=
  match d with
  | [] => [(k, v)]
  | (k', v') :: d' =>
      if eqb k' k then (k', v) :: d' else (k', v') :: dict_set d' k v
  end.

(** Lines 70-73. *)
Definition count_languages (qs : list query) : list (pystr * nat) :=
  fold_left (fun lang_counts q =>
               let lang := language q in
               dict_set lang_counts lang (dict_get lang_counts lang 0 + 1)%nat)
            qs [].

(** [sorted(items, key=lambda x: x[1], reverse=True)].  Python's sort is
    stable, also under [reverse=True]: items with equal counts keep their
    order.  A stable sort has one possible result; it is computed here by
    insertion. *)
Fixpoint insert_desc (x : pystr * nat) (l : list (pystr * nat))
  : list (pystr * nat) :=
  match l with
  | [] => [x]
  | y :: l' => if (snd x <? snd y)%nat then y :: insert_desc x l' else x :: l
  end.

Fixpoint sorted_desc (l : list (pystr * nat)) : list (pystr * nat) :=
  match l with
  | [] => []
  | x :: l' => insert_desc x (sorted_desc l')
  end.

(** The double nearest to the integer [z]: [float(z)]. *)
Definition float_of_Z (z : Z) : PrimFloat.float :=
  FloatOps.SF2Prim
    (SpecFloat.binary_normalize FloatOps.prec FloatOps.emax z 0 false).

(** The double a logged value is.  The records keep every logged double by
    its exact value; [to_float] gives the double back (and the nearest
    double for a quotient of two integers that is none, which is how
    [timedelta.total_seconds()] rounds). *)
Definition to_float (q : Q) : PrimFloat.float :=
  let d := Zpos (Qden q) in
  let k := Z.log2 d in
  if (2 ^ k =? d)%Z
  then FloatOps.Z.ldexp (float_of_Z (Qnum q)) (- k)
  else PrimFloat.div (float_of_Z (Qnum q)) (float_of_Z d).

(** The builtin [sum] on doubles depends on the interpreter: CPython up to
    3.11 adds from left to right; from 3.12 on it also carries the
    compensation term of Neumaier's algorithm. *)
Inductive runtime :=
| CPython311
| CPython312.

(** [0 + x1 + x2 + ...], each addition rounded. *)
Definition sum_plain (l : list PrimFloat.float) : PrimFloat.float :=
  fold_left PrimFloat.add l PrimFloat.zero.

(** The loop of the compensated sum: [f_result] is the running sum, [c]
    the compensation, added at the end when it is finite and not 0. *)
Fixpoint sum_compensated_from (l : list PrimFloat.float)
         (f_result c : PrimFloat.float) : PrimFloat.float :=
  match l with
  | [] =>
      if negb (PrimFloat.eqb c PrimFloat.zero) && PrimFloat.is_finite c
      then PrimFloat.add f_result c
      else f_result
  | x :: l' =>
      let t := PrimFloat.add f_result x in
      let c :=
        if PrimFloat.leb (PrimFloat.abs x) (PrimFloat.abs f_result)
        then PrimFloat.add c (PrimFloat.add (PrimFloat.sub f_result t) x)
        else PrimFloat.add c (PrimFloat.add (PrimFloat.sub x t) f_result) in
      sum_compensated_from l' t c
  end.

Definition sum_compensated (l : list PrimFloat.float) : PrimFloat.float :=
  match l with
  | [] => PrimFloat.zero
  | x :: l' => sum_compensated_from l' (PrimFloat.add PrimFloat.zero x) PrimFloat.zero
  end.

(** [sum(...)] of doubles. *)
Definition sum (py : runtime) (l : list PrimFloat.float) : PrimFloat.float :=
  match py with
  | CPython311 => sum_plain l
  | CPython312 => sum_compensated l
  end.

(** [timedelta.seconds] of a difference of [d] microseconds. *)
Definition timedelta_seconds (d : Z) : Z := ((d / 1000000) mod 86400)%Z.

(** The values [show_summary] computes and then prints; the formatting of
    the console output is not modelled. *)
Record summary := {
  total_queries : nat;
  session_duration : Z;
  language_distribution : list (pystr * nat);
  avg_conf : PrimFloat.float;
  avg_time : PrimFloat.float
}.

(** [show_summary]: [None] stands for the "No queries processed yet."
    notice.  The object is returned with the view, as the method leaves
    it. *)
Definition show_summary (py : runtime) (self : t) (now : Z)
  : option summary * t :=
  match queries self with
  | [] => (None, self)
  | _ :: _ =>
      let n := List.length (queries self) in
      let lang_counts := count_languages (queries self) in
      (Some {| total_queries := n;
               session_duration := timedelta_seconds (now - start_time self);
               language_distribution := sorted_desc lang_counts;
               avg_conf :=
                 PrimFloat.div
                   (sum py (map to_float (map confidence (queries self))))
                   (float_of_Z (Z.of_nat n));
               avg_time :=
                 PrimFloat.div
                   (sum py (map to_float (map response_time (queries self))))
                   (float_of_Z (Z.of_nat n)) |},
       self)
  end.

End TranslationMetrics.

(* ================================================================== *)
(** ** Main query processor: [process_query] *)
(* ================================================================== *)

(** [s.ljust(width)], the padding of [f"{s:<width}"]. *)
Definition ljust (s : pystr) (width : nat) : pystr :=
  s ++ repeat 32%N (width - List.length s).

(** One row of a printed box: [f"│ {s:<66} │"]. *)
Definition box_row (s : pystr) : pystr :=
  [0x2502; 32]%N ++ ljust s 66 ++ [32; 0x2502]%N.

(** Lines 304-312: the loop that wraps the words of the support response.
    The result lists the values of [line.strip()] that are printed, in
    order. *)
Fixpoint wrap_loop (words : list pystr) (line : pystr) : list pystr :=
  match words with
  | [] => match strip line with
          | [] => []
          | _ :: _ => [strip line]
          end
  | word :: rest =>
      if (List.length (line ++ word) <=? 64)%nat
      then wrap_loop rest (line ++ word ++ [32%N])
      else strip line :: wrap_loop rest (word ++ [32%N])
  end.

(** Lines 303-312. *)
Definition wrap_response (support_response : pystr) : list pystr :=
  wrap_loop (split support_response) [].

(** The rows printed inside the "Support Response" box. *)
Definition support_response_rows (support_response : pystr) : list pystr :=
  map box_row (wrap_response support_response).

(** [timedelta.total_seconds()] of a difference of [d] microseconds. *)
Definition total_seconds (d : Z) : Q := inject_Z d / 1000000.

Module QueryResult.

(** The dict returned by [process_query]. *)
Record t := {
  original : pystr;
  language : pystr;
  english : pystr;
  confidence : Q;
  response : pystr;
  time : Q
}.

End QueryResult.

Section Pipeline.

Variable detect : pystr -> result pystr.
Variable net : nat -> payload -> post_outcome.
Variable lower upper : pystr -> pystr.

(** [process_query], without its console output.  [start] and [stop] are
    the two readings of the clock (microseconds) at lines 269 and 315,
    [stamp] the formatted time [log_query] takes; [metrics] is the global
    collector.  An exception leaves the function before anything is
    logged. *)
Definition process_query (start stop : Z) (stamp : pystr) (user_input : pystr)
           (w : world) (metrics : TranslationMetrics.t)
  : result QueryResult.t * world * TranslationMetrics.t :=
  match detect_language detect user_input with
  | Exc e => (Exc e, w, metrics)
  | Val lang_code =>
      let lang_name := dict_get LANGUAGE_NAMES lang_code (upper lang_code) in
      match translate_to_english net lower upper user_input lang_code w with
      | (Exc e, w1) => (Exc e, w1, metrics)
      | (Val (english_translation, confidence), w1) =>
          match generate_support_response net english_translation w1 with
          | (Exc e, w2) => (Exc e, w2, metrics)
          | (Val support_response, w2) =>
              let response_time := total_seconds (stop - start) in
              let metrics' :=
                TranslationMetrics.log_query metrics stamp lang_name user_input
                  english_translation confidence response_time in
              (Val {| QueryResult.original := user_input;
                      QueryResult.language := lang_name;
                      QueryResult.english := english_translation;
                      QueryResult.confidence := confidence;
                      QueryResult.response := support_response;
                      QueryResult.time := response_time |},
               w2, metrics')
          end
      end
  end.

End Pipeline.

(* ================================================================== *)
(** ** Vocabulary of the properties *)
(* ================================================================== *)

(** The models [ACTIVE_MODEL] may name. *)
Definition known_model (m : pystr) : Prop := m = MODEL \/ In m FALLBACK_MODELS.

(** The script ranges tested before the Devanagari one. *)
Definition no_earlier_script (text : pystr) : Prop :=
  has_cyrillic text = false /\ has_chinese text = false
  /\ has_korean text = false /\ has_japanese text = false.

(** The marker "ने", which both lists contain. *)
Definition marker_ne : pystr := [0x0928; 0x0947]%N.

(** The world after one more request has been posted. *)
Definition posted (w : world) (p : payload) : world :=
  {| ACTIVE_MODEL := ACTIVE_MODEL w; sent := sent w ++ [p] |}.

(** The world after the decommission branch has run on payload [p]. *)
Definition substituted (w : world) (p : payload) : world :=
  {| ACTIVE_MODEL := FALLBACK_MODELS_0; sent := sent w ++ [p] |}.

(** A response that takes the decommission branch: status 400 with an error
    message that contains "decommissioned" or "not found". *)
Definition decommission_signal (o : post_outcome) : bool :=
  match o with
  | PostRaises _ => false
  | PostResponse r =>
      (status_code r =? 400)%Z
      && match error_message r with
         | Val msg => model_invalid msg
         | Exc _ => false
         end
  end.

(** The world once the module has been loaded (line 120). *)
Definition startup (probe : get_outcome) : world :=
  {| ACTIVE_MODEL := get_active_model probe; sent := [] |}.

(** A session: completion calls made one after the other; a call that
    raises leaves the world as it was at the raise. *)
Fixpoint session (net : nat -> payload -> post_outcome)
                 (calls : list (list message * Z)) (w : world) : world :=
  match calls with
  | [] => w
  | (messages, max_tokens) :: rest =>
      session net rest (snd (call_groq_api net messages max_tokens w))
  end.

(** [ACTIVE_MODEL] was written between [w] and [w'] only by the
    decommission branch: it is unchanged, or it is the first fallback and
    one of the (at most [budget]) requests posted since [w] was answered by
    a decommission signal. *)
Definition written_by_decommission (net : nat -> payload -> post_outcome)
           (budget : nat) (w w' : world) : Prop :=
  ACTIVE_MODEL w' = ACTIVE_MODEL w
  \/ (ACTIVE_MODEL w' = FALLBACK_MODELS_0
      /\ exists i q,
           (i < budget)%nat
           /\ nth_error (sent w') (List.length (sent w) + i) = Some q
           /\ decommission_signal (net (List.length (sent w) + i)%nat q) = true).

(** Number of records logged with language [lang]. *)
Definition count_language (lang : pystr) (qs : list TranslationMetrics.query) : nat :=
  List.length (filter (fun q => eqb (TranslationMetrics.language q) lang) qs).

(** Position of the first record logged with language [lang]. *)
Fixpoint first_seen (lang : pystr) (qs : list TranslationMetrics.query) : nat :=
  match qs with
  | [] => 0
  | q :: qs' =>
      if eqb (TranslationMetrics.language q) lang then 0 else S (first_seen lang qs')
  end.

(** The order a stable descending sort by count produces, when [before a b]
    says that [a] stands before [b] in the list that is sorted. *)
Definition stable_order (before : pystr * nat -> pystr * nat -> Prop)
           (a b : pystr * nat) : Prop :=
  (snd b < snd a)%nat \/ (snd a = snd b /\ before a b).

(** The order of the printed distribution: larger count first, and among
    equal counts the language first seen earlier. *)
Definition distribution_order (qs : list TranslationMetrics.query)
           (a b : pystr * nat) : Prop :=
  (snd b < snd a)%nat
  \/ (snd a = snd b /\ (first_seen (fst a) qs < first_seen (fst b) qs)%nat).

(** A word as [split] produces them: not empty, and without whitespace. *)
Definition clean_word (word : pystr) : Prop :=
  word <> [] /\ forallb (fun c => negb (isspace c)) word = true.

(** A service whose answers the client can always read: no request fails
    with an exception other than a [RequestException], a 200 body has the
    choice content and a 400 body has a readable error message (or reading
    them fails with a [RequestException]). *)
Definition readable (net : nat -> payload -> post_outcome) : Prop :=
  forall n p,
    match net n p with
    | PostRaises (RequestException _) => True
    | PostRaises (OtherException _) => False
    | PostResponse r =>
        (status_code r = 200%Z ->
         forall str_e, choice_content r <> Exc (OtherException str_e))
        /\ (status_code r = 400%Z ->
            forall str_e, error_message r <> Exc (OtherException str_e))
    end.

(** The texts [call_groq_api] returns for a failed call. *)
Definition error_text (text : pystr) : Prop :=
  (exists rest, text = lit "API Error: " ++ rest)
  \/ (exists rest, text = lit "Network Error: " ++ rest).

(** The world after [k] requests with payload [p] that changed nothing
    else. *)
Definition posted_times (w : world) (p : payload) (k : nat) : world :=
  {| ACTIVE_MODEL := ACTIVE_MODEL w; sent := sent w ++ repeat p k |}.

(** The line the wrapping loop holds after it has taken the words [ws]:
    each word followed by one space. *)
Definition spaced (ws : list pystr) : pystr :=
  concat (map (fun word => word ++ [32%N]) ws).

(* ================================================================== *)
(** ** Inputs for the examples *)
(* ================================================================== *)

(** [str.lower] and [str.upper] restricted to ASCII text, to run examples. *)
Definition ascii_lower (s : pystr) : pystr :=
  map (fun c => if ((65 <=? c) && (c <=? 90))%N then (c + 32)%N else c) s.

Definition ascii_upper (s : pystr) : pystr :=
  map (fun c => if ((97 <=? c) && (c <=? 122))%N then (c - 32)%N else c) s.

(** A service that answers every request with status 500. *)
Definition net_unavailable : nat -> payload -> post_outcome :=
  fun _ _ => PostResponse {| status_code := 500;
                             choice_content := Exc (OtherException (lit "choices"));
                             error_message := Val (lit "Internal Server Error") |}.

(** A service that cannot be reached. *)
Definition net_down : nat -> payload -> post_outcome :=
  fun _ _ => PostRaises (RequestException (lit "Connection timed out")).

(** A service that has retired the preferred model and serves the others. *)
Definition net_model_retired : nat -> payload -> post_outcome :=
  fun _ p =>
    if eqb (model p) MODEL
    then PostResponse
           {| status_code := 400;
              choice_content := Exc (OtherException (lit "choices"));
              error_message := Val (lit "The model has been decommissioned and is no longer supported.") |}
    else PostResponse
           {| status_code := 200;
              choice_content := Val (lit " Where is my order? ");
              error_message := Val [] |}.

Definition fresh_world : world := {| ACTIVE_MODEL := MODEL; sent := [] |}.

(** A log of five queries: Hindi, Spanish, Hindi, Spanish, French. *)
Definition sample_metrics : TranslationMetrics.t :=
  let log lang conf time m :=
    TranslationMetrics.log_query m (lit "2025-11-04 10:00:00") lang
                                 (lit "original") (lit "translation") conf time in
  log (lit "French") 90 (1 # 2)
   (log (lit "Spanish") 95 (3 # 2)
    (log (lit "Hindi") 75 2
     (log (lit "Spanish") 100 1
      (log (lit "Hindi") 90 (5 # 2)
       (TranslationMetrics.init 0))))).

(** A service that fails twice and then answers. *)
Definition net_flaky : nat -> payload -> post_outcome :=
  fun n _ =>
    if (n <? 2)%nat
    then PostRaises (RequestException (lit "Read timed out."))
    else PostResponse
           {| status_code := 200;
              choice_content := Val (lit "Hello, how can I help?  ");
              error_message := Val [] |}.

(* ================================================================== *)
(** * Properties *)
(* ================================================================== *)

(** ** Equality and membership of strings *)

Lemma eqb_spec (a b : pystr) : reflect (a = b) (eqb a b).
Proof.
  revert b; induction a as [|x a IH]; intros [|y b]; simpl;
    try (constructor; congruence).
  destruct (N.eqb_spec x y) as [->|Hn]; simpl.
  - destruct (IH b) as [->|Hn]; constructor; congruence.
  - constructor; congruence.
Qed.

Lemma eqb_refl (a : pystr) : eqb a a = true.
Proof. destruct (eqb_spec a a); congruence. Qed.

Lemma eqb_eq (a b : pystr) : eqb a b = true <-> a = b.
Proof. destruct (eqb_spec a b); split; congruence. Qed.

Lemma eqb_neq (a b : pystr) : eqb a b = false <-> a <> b.
Proof. destruct (eqb_spec a b); split; congruence. Qed.

Lemma mem_In (x : pystr) (l : list pystr) : mem x l = true <-> In x l.
Proof.
  unfold mem; rewrite existsb_exists; split.
  - intros (y & Hy & E). apply eqb_eq in E. now subst.
  - intros H. exists x. split; [assumption | apply eqb_refl].
Qed.


(** ** Whitespace, [strip] and substrings *)

Lemma lstrip_blank (s : pystr) : forallb isspace s = true -> lstrip s = [].
Proof.
  induction s as [|c s IH]; simpl; [reflexivity|].
  intros H. apply andb_true_iff in H as [Hc Hs]. rewrite Hc. auto.
Qed.

Lemma lstrip_nil (s : pystr) : lstrip s = [] -> forallb isspace s = true.
Proof.
  induction s as [|c s IH]; simpl; [reflexivity|].
  destruct (isspace c); [auto | discriminate].
Qed.

(** [lstrip] removes a whitespace prefix and stops at the first code point
    that is not whitespace. *)
Lemma lstrip_decompose (s : pystr) :
  exists ws, s = ws ++ lstrip s /\ forallb isspace ws = true
             /\ match lstrip s with [] => True | c :: _ => isspace c = false end.
Proof.
  induction s as [|c s (ws & E & Hws & Hhd)]; simpl.
  - exists []. auto.
  - destruct (isspace c) eqn:Hc.
    + exists (c :: ws). simpl. rewrite Hc, Hws. split; [congruence | auto].
    + exists []. simpl. auto.
Qed.

Lemma forallb_rev {A} (f : A -> bool) (l : list A) :
  forallb f (rev l) = forallb f l.
Proof.
  induction l as [|x l IH]; simpl; [reflexivity|].
  rewrite forallb_app, IH. simpl. rewrite andb_true_r. apply andb_comm.
Qed.

Lemma strip_blank (s : pystr) : forallb isspace s = true -> strip s = [].
Proof.
  intros H. unfold strip, rstrip. now rewrite (lstrip_blank s H).
Qed.

Lemma strip_nil (s : pystr) : strip s = [] -> forallb isspace s = true.
Proof.
  unfold strip, rstrip. intros H.
  assert (H1 : lstrip (rev (lstrip s)) = []).
  { destruct (lstrip (rev (lstrip s))) as [|x l]; [reflexivity|].
    simpl in H. destruct (rev l); discriminate. }
  apply lstrip_nil in H1. rewrite forallb_rev in H1.
  destruct (lstrip_decompose s) as (ws & E & Hws & Hhd).
  destruct (lstrip s) as [|c r] eqn:El.
  - now apply lstrip_nil.
  - simpl in H1. rewrite Hhd in H1. discriminate.
Qed.

(** [strip] keeps a contiguous middle part of the string and removes only
    whitespace around it. *)
Lemma strip_decompose (s : pystr) :
  exists before after,
    s = before ++ strip s ++ after
    /\ forallb isspace before = true /\ forallb isspace after = true
    /\ match strip s with [] => True | c :: _ => isspace c = false end
    /\ match rev (strip s) with [] => True | c :: _ => isspace c = false end.
Proof.
  destruct (lstrip_decompose s) as (before & E1 & Hb & Hhd).
  destruct (lstrip_decompose (rev (lstrip s))) as (ws & E2 & Hws & Hlast).
  exists before, (rev ws). unfold strip, rstrip.
  set (m := lstrip (rev (lstrip s))) in *.
  assert (Em : lstrip s = rev m ++ rev ws).
  { rewrite <- rev_app_distr, <- E2. now rewrite rev_involutive. }
  repeat split.
  - rewrite <- Em. exact E1.
  - exact Hb.
  - now rewrite forallb_rev.
  - destruct (rev m) as [|c r] eqn:Er; [exact I|].
    rewrite Em in Hhd. exact Hhd.
  - rewrite rev_involutive. exact Hlast.
Qed.

Lemma contains_existsb (f : N -> bool) (c : N) (p s : pystr) :
  f c = true -> contains s (c :: p) = true -> existsb f s = true.
Proof.
  intros Hc. induction s as [|x s IH]; simpl.
  - discriminate.
  - intros H. apply orb_true_iff in H as [H|H].
    + apply andb_true_iff in H as [H _]. apply N.eqb_eq in H. subst x.
      now rewrite Hc.
    + rewrite (IH H). apply orb_true_r.
Qed.

Lemma devanagari_not_space (c : N) :
  ((0x0900 <=? c) && (c <=? 0x097F))%N = true -> isspace c = false.
Proof.
  intros H. apply andb_true_iff in H as [H1 H2].
  apply N.leb_le in H1. apply N.leb_le in H2.
  unfold isspace.
  repeat (apply orb_false_intro);
    try (apply N.eqb_neq; lia);
    apply andb_false_iff; first [left; apply N.leb_gt; lia | right; apply N.leb_gt; lia].
Qed.

Lemma has_devanagari_not_blank (text : pystr) :
  has_devanagari text = true -> strip text <> [].
Proof.
  intros H E. apply strip_nil in E.
  unfold has_devanagari, re_search_range in H.
  apply existsb_exists in H as (c & Hin & Hc).
  rewrite forallb_forall in E. specialize (E c Hin).
  rewrite (devanagari_not_space c Hc) in E. discriminate.
Qed.

(** ** The constants *)

Lemma FALLBACK_MODELS_first : nth_error FALLBACK_MODELS 0 = Some FALLBACK_MODELS_0.
Proof. reflexivity. Qed.

Lemma MODEL_not_fallback : ~ In MODEL FALLBACK_MODELS.
Proof.
  intros H. apply mem_In in H. vm_compute in H. discriminate.
Qed.

Lemma FALLBACK_MODELS_0_in : In FALLBACK_MODELS_0 FALLBACK_MODELS.
Proof. left. reflexivity. Qed.

Lemma first_available_first (available skipped rest : list pystr) (fb : pystr) :
  FALLBACK_MODELS = skipped ++ fb :: rest ->
  In fb available ->
  (forall x, In x skipped -> ~ In x available) ->
  first_available available = Some fb.
Proof.
  unfold first_available. intros -> Hfb.
  induction skipped as [|x skipped IH]; simpl; intros Hsk.
  - apply mem_In in Hfb. now rewrite Hfb.
  - destruct (mem x available) eqn:Hx.
    + apply mem_In in Hx. now destruct (Hsk x (or_introl eq_refl)).
    + apply IH. intros y Hy. apply Hsk. now right.
Qed.

Lemma first_available_none (available : list pystr) :
  (forall fb, In fb FALLBACK_MODELS -> ~ In fb available) ->
  first_available available = None.
Proof.
  unfold first_available. intros H.
  destruct (find _ FALLBACK_MODELS) as [fb|] eqn:E; [|reflexivity].
  apply find_some in E as [Hin Hmem]. apply mem_In in Hmem.
  now destruct (H fb Hin).
Qed.

Lemma first_available_in (available : list pystr) (fb : pystr) :
  first_available available = Some fb -> In fb FALLBACK_MODELS.
Proof. unfold first_available. intros E. now apply find_some in E. Qed.

(** ** Startup probe *)

Lemma get_active_model_known (probe : get_outcome) :
  known_model (get_active_model probe).
Proof.
  pose proof FALLBACK_MODELS_0_in as H0.
  unfold known_model.
  destruct probe as [e|st [available|e]]; simpl; auto;
    destruct (negb _); auto.
  destruct (mem MODEL available); auto.
  destruct (first_available available) as [fb|] eqn:E; auto.
  right. eapply first_available_in; eassumption.
Qed.

(** C1, as the claim states it, fails: on a model listing answered with a
    status other than 200 the probe returns the preferred model, and does
    not look at the fallbacks even when the body lists one. *)
Lemma get_active_model_non200_counterexample :
  let probe := GetResponse 503 (Val [lit "gemma2-9b-it"]) in
  get_active_model probe = MODEL
  /\ get_active_model probe <> lit "gemma2-9b-it"
  /\ ~ In (get_active_model probe) FALLBACK_MODELS.
Proof.
  cbv zeta. change (get_active_model _) with MODEL.
  split; [reflexivity|]. split.
  - intros E. apply eqb_eq in E. vm_compute in E. discriminate.
  - exact MODEL_not_fallback.
Qed.

(** C1 (amended): a probe that raises, or whose body cannot be read, gives
    the first fallback; a status other than 200 gives the preferred model;
    a 200 listing without the preferred model gives the first fallback, in
    list order, that the listing contains, and the first fallback of the
    list when it contains none -- never the preferred model. *)
Theorem get_active_model_fallback (probe : get_outcome) :
  (forall e, probe = GetRaises e ->
     get_active_model probe = FALLBACK_MODELS_0)
  /\ (forall status ids, probe = GetResponse status ids -> status <> 200%Z ->
        get_active_model probe = MODEL)
  /\ (forall e, probe = GetResponse 200 (Exc e) ->
        get_active_model probe = FALLBACK_MODELS_0)
  /\ (forall available,
        probe = GetResponse 200 (Val available) -> ~ In MODEL available ->
        (forall skipped fb rest,
           FALLBACK_MODELS = skipped ++ fb :: rest ->
           In fb available ->
           (forall x, In x skipped -> ~ In x available) ->
           get_active_model probe = fb)
        /\ ((forall fb, In fb FALLBACK_MODELS -> ~ In fb available) ->
            get_active_model probe = FALLBACK_MODELS_0)
        /\ In (get_active_model probe) FALLBACK_MODELS
        /\ get_active_model probe <> MODEL).
Proof.
  split; [|split; [|split]].
  - intros e ->. reflexivity.
  - intros status ids -> Hs. simpl.
    destruct (Z.eqb_spec status 200); [contradiction | reflexivity].
  - intros e ->. reflexivity.
  - intros available -> Hno.
    assert (Hmem : mem MODEL available = false).
    { destruct (mem MODEL available) eqn:E; [|reflexivity].
      apply mem_In in E. contradiction. }
    assert (Hin : In (get_active_model (GetResponse 200 (Val available)))
                     FALLBACK_MODELS).
    { simpl. rewrite Hmem.
      destruct (first_available available) as [fb|] eqn:E.
      - eapply first_available_in; eassumption.
      - exact FALLBACK_MODELS_0_in. }
    repeat split.
    + intros skipped fb rest E Hfb Hsk. simpl. rewrite Hmem.
      now rewrite (first_available_first available skipped rest fb E Hfb Hsk).
    + intros Hnone. simpl. rewrite Hmem.
      now rewrite (first_available_none available Hnone).
    + exact Hin.
    + intros E. rewrite E in Hin. now apply MODEL_not_fallback.
Qed.

Lemma get_active_model_fallback_witness :
  get_active_model
    (GetResponse 200 (Val [lit "mixtral-8x7b-32768"; lit "gemma2-9b-it"]))
  = lit "gemma2-9b-it".
Proof.
  refine (proj1 (proj2 (proj2 (proj2
            (get_active_model_fallback
               (GetResponse 200 (Val [lit "mixtral-8x7b-32768"; lit "gemma2-9b-it"])))))
            _ eq_refl _)
          [lit "llama3-70b-8192"] (lit "gemma2-9b-it") [lit "mixtral-8x7b-32768"]
          eq_refl _ _).
  - intros H. apply mem_In in H. vm_compute in H. discriminate.
  - right. left. reflexivity.
  - intros x [<-|[]] H. apply mem_In in H. vm_compute in H. discriminate.
Defined.

(** ** Language detection *)

Lemma lit_hi_neq_mr : lit "hi" <> lit "mr".
Proof. intros E. apply eqb_eq in E. vm_compute in E. discriminate. Qed.

Lemma detect_language_blank detect (text : pystr) :
  forallb isspace text = true -> detect_language detect text = Val (lit "en").
Proof.
  intros H. unfold detect_language. now rewrite (strip_blank text H).
Qed.

(** What [detect_language] computes once the Devanagari branch is reached. *)
Lemma detect_language_devanagari_branch detect (text : pystr) :
  no_earlier_script text -> has_devanagari text = true ->
  detect_language detect text =
    if (hindi_count text <? marathi_count text)%nat && (0 <? marathi_count text)%nat
    then Val (lit "mr")
    else if (0 <? hindi_count text)%nat then Val (lit "hi")
    else devanagari_fallback detect text.
Proof.
  intros (H1 & H2 & H3 & H4) Hd. unfold detect_language.
  pose proof (has_devanagari_not_blank text Hd) as Hs.
  destruct (strip text); [congruence|].
  now rewrite H1, H2, H3, H4, Hd.
Qed.

Lemma devanagari_fallback_mr detect (text : pystr) :
  devanagari_fallback detect text = Val (lit "mr") <-> detect text = Val (lit "mr").
Proof.
  unfold devanagari_fallback. destruct (detect text) as [d|e].
  - split; intros H.
    + destruct (mem d [lit "hi"; lit "mr"]); [exact H|].
      injection H as H. now destruct lit_hi_neq_mr.
    + injection H as ->. reflexivity.
  - split; intros H; [|discriminate].
    injection H as H. now destruct lit_hi_neq_mr.
Qed.

(** C8: [detect_language] returns a code on every text -- no exception of
    the statistical detector leaves it -- and the code is "en" on the empty
    text, on "   ", on any whitespace-only text, and on a text of no tested
    script that the detector fails on. *)
Theorem detect_language_total detect (text : pystr) :
  (exists code, detect_language detect text = Val code)
  /\ detect_language detect [] = Val (lit "en")
  /\ detect_language detect (lit "   ") = Val (lit "en")
  /\ (forallb isspace text = true ->
      detect_language detect text = Val (lit "en"))
  /\ (forall e, detect text = Exc e ->
      no_earlier_script text -> has_devanagari text = false ->
      detect_language detect text = Val (lit "en")).
Proof.
  split; [|split; [|split; [|split]]].
  - unfold detect_language, devanagari_fallback.
    destruct (strip text); [eauto|].
    repeat match goal with
           | |- context [if ?b then _ else _] => destruct b
           end;
      try destruct (detect text) as [d|e]; eauto.
  - reflexivity.
  - reflexivity.
  - apply detect_language_blank.
  - intros e He (H1 & H2 & H3 & H4) Hd. unfold detect_language.
    destruct (strip text); [reflexivity|].
    now rewrite H1, H2, H3, H4, Hd, He.
Qed.

Lemma detect_language_total_witness :
  detect_language (fun _ => Exc (OtherException (lit "No features in text.")))
                  (lit "?!")
  = Val (lit "en").
Proof.
  refine (proj2 (proj2 (proj2 (proj2
            (detect_language_total
               (fun _ => Exc (OtherException (lit "No features in text.")))
               (lit "?!")))))
          (OtherException (lit "No features in text.")) eq_refl _ eq_refl).
  repeat split.
Defined.

(** C2, as the claim states it, fails: a Devanagari text without any marker
    word has both counts 0, and [detect_language] still returns "mr" for it
    when the statistical detector says "mr".  The text is "मराठी". *)
Lemma detect_language_mr_without_markers_counterexample :
  let text := [0x092E; 0x0930; 0x093E; 0x0920; 0x0940]%N in
  let detect := fun _ : pystr => Val (lit "mr") in
  has_devanagari text = true /\ no_earlier_script text /\ strip text <> []
  /\ ~ (detect_language detect text = Val (lit "mr")
        <-> (hindi_count text < marathi_count text /\ 0 < marathi_count text)%nat).
Proof.
  cbv zeta. split; [reflexivity|]. split; [repeat split|]. split.
  - vm_compute. discriminate.
  - intros [H _]. specialize (H eq_refl). vm_compute in H. lia.
Qed.

(** C2 (amended): on a text that reaches the Devanagari branch, the count
    of a marker list is the number of its words that occur in the text as a
    substring; the result is "mr" when the Marathi count exceeds the Hindi
    count and is positive, otherwise "hi" when the Hindi count is positive;
    it is "mr" exactly when the counts say so or both counts are 0 and the
    statistical detector answers "mr".  Counts 2 against 1 give "mr", counts
    0 against 2 give "hi". *)
Theorem detect_language_devanagari_markers detect (text : pystr) :
  has_devanagari text = true -> no_earlier_script text -> strip text <> [] ->
  hindi_count text
    = List.length (filter (fun marker => contains text marker) hindi_markers)
  /\ marathi_count text
    = List.length (filter (fun marker => contains text marker) marathi_markers)
  /\ ((hindi_count text < marathi_count text)%nat ->
      (0 < marathi_count text)%nat ->
      detect_language detect text = Val (lit "mr"))
  /\ (~ ((hindi_count text < marathi_count text)%nat
         /\ (0 < marathi_count text)%nat) ->
      (0 < hindi_count text)%nat ->
      detect_language detect text = Val (lit "hi"))
  /\ (detect_language detect text = Val (lit "mr") <->
      ((hindi_count text < marathi_count text)%nat
       /\ (0 < marathi_count text)%nat)
      \/ (hindi_count text = 0%nat /\ marathi_count text = 0%nat
          /\ detect text = Val (lit "mr")))
  /\ (marathi_count text = 2%nat -> hindi_count text = 1%nat ->
      detect_language detect text = Val (lit "mr"))
  /\ (hindi_count text = 2%nat -> marathi_count text = 0%nat ->
      detect_language detect text = Val (lit "hi")).
Proof.
  intros Hd Hs _.
  rewrite (detect_language_devanagari_branch detect text Hs Hd).
  split; [reflexivity|]. split; [reflexivity|].
  pose proof lit_hi_neq_mr as Hneq.
  pose proof (devanagari_fallback_mr detect text) as Hfb.
  destruct (Nat.ltb_spec (hindi_count text) (marathi_count text)) as [Hlt|Hge];
    destruct (Nat.ltb_spec 0 (marathi_count text)) as [Hm|Hm];
    destruct (Nat.ltb_spec 0 (hindi_count text)) as [Hh|Hh]; cbn [andb];
    try lia.
  - repeat split; intros; try reflexivity; lia.
  - repeat split; intros; try reflexivity; lia.
  - repeat split; intros; try reflexivity; try lia; congruence.
  - repeat split; intros; try reflexivity; try lia; congruence.
  - repeat split; intros; try lia.
    + right. repeat split; try lia. now apply Hfb.
    + apply Hfb. destruct H as [[? ?]|(? & ? & ?)]; [lia | assumption].
Qed.

(** Two texts with the counts of the claim: "आहे ला" holds the Marathi
    markers "आहे" and "ला" and the Hindi marker "हे"; "है और" holds the Hindi
    markers "है" and "और" and no Marathi marker. *)
Lemma detect_language_devanagari_markers_witness :
  detect_language (fun _ => Val (lit "hi"))
                  [0x0906; 0x0939; 0x0947; 0x20; 0x0932; 0x093E]%N
    = Val (lit "mr")
  /\ detect_language (fun _ => Val (lit "mr"))
                     [0x0939; 0x0948; 0x20; 0x0914; 0x0930]%N
    = Val (lit "hi").
Proof.
  split.
  - refine (proj1 (proj2 (proj2 (proj2 (proj2 (proj2
              (detect_language_devanagari_markers
                 (fun _ => Val (lit "hi"))
                 [0x0906; 0x0939; 0x0947; 0x20; 0x0932; 0x093E]%N
                 eq_refl _ _))))))
            eq_refl eq_refl).
    + repeat split.
    + vm_compute. discriminate.
  - refine (proj2 (proj2 (proj2 (proj2 (proj2 (proj2
              (detect_language_devanagari_markers
                 (fun _ => Val (lit "mr"))
                 [0x0939; 0x0948; 0x20; 0x0914; 0x0930]%N
                 eq_refl _ _))))))
            eq_refl eq_refl).
    + repeat split.
    + vm_compute. discriminate.
Defined.

Lemma marker_ne_in_both : In marker_ne hindi_markers /\ In marker_ne marathi_markers.
Proof. split; apply mem_In; reflexivity. Qed.

(** C10: a text that contains "ne" and no other marker of either list has
    Hindi count 1 and Marathi count 1; the Marathi count does not exceed the
    Hindi count, and when the text reaches the Devanagari branch the result
    is "hi". *)
Theorem detect_language_shared_marker detect (text : pystr) :
  contains text marker_ne = true ->
  (forall marker, In marker (hindi_markers ++ marathi_markers) ->
                  marker <> marker_ne -> contains text marker = false) ->
  hindi_count text = 1%nat /\ marathi_count text = 1%nat
  /\ ~ (hindi_count text < marathi_count text)%nat
  /\ has_devanagari text = true
  /\ (no_earlier_script text -> detect_language detect text = Val (lit "hi")).
Proof.
  intros Hne Hno.
  assert (Hh : hindi_count text = 1%nat).
  { unfold hindi_count, marker_count, hindi_markers. cbn [filter].
    unfold marker_ne in Hne. rewrite Hne.
    repeat match goal with
           | |- context [contains text ?m] =>
               rewrite (Hno m) by
                 (first [ apply in_or_app; left; apply mem_In; reflexivity
                        | intros E; apply eqb_eq in E; vm_compute in E; discriminate ])
           end.
    reflexivity. }
  assert (Hm : marathi_count text = 1%nat).
  { unfold marathi_count, marker_count, marathi_markers. cbn [filter].
    unfold marker_ne in Hne. rewrite Hne.
    repeat match goal with
           | |- context [contains text ?m] =>
               rewrite (Hno m) by
                 (first [ apply in_or_app; right; apply mem_In; reflexivity
                        | intros E; apply eqb_eq in E; vm_compute in E; discriminate ])
           end.
    reflexivity. }
  assert (Hd : has_devanagari text = true).
  { unfold has_devanagari, re_search_range.
    refine (contains_existsb _ _ _ text _ Hne). reflexivity. }
  repeat split; try assumption; try lia.
  intros Hs. rewrite (detect_language_devanagari_branch detect text Hs Hd).
  rewrite Hh, Hm. reflexivity.
Qed.

Lemma detect_language_shared_marker_witness :
  detect_language (fun _ => Val (lit "mr")) [0x0928; 0x0947]%N = Val (lit "hi").
Proof.
  refine (proj2 (proj2 (proj2 (proj2
            (detect_language_shared_marker
               (fun _ => Val (lit "mr")) [0x0928; 0x0947]%N eq_refl _)))) _).
  - intros marker Hin Hneq.
    apply in_app_or in Hin. unfold hindi_markers, marathi_markers in Hin.
    simpl in Hin.
    repeat match type of Hin with
           | _ \/ _ => destruct Hin as [Hin|Hin]
           end;
      try contradiction; subst marker; try reflexivity;
      now destruct Hneq.
  - repeat split.
Defined.

(** ** The remote completion call *)

Section RemoteFacts.

Variable net : nat -> payload -> post_outcome.

Lemma attempt_body_transport attempt (p : payload) (w : world) (str_e : pystr) :
  net (List.length (sent w)) p = PostRaises (RequestException str_e) ->
  attempt_body net attempt p w =
    (Val (if (attempt =? 2)%nat
          then Return (lit "Network Error: " ++ str_e) else Next p),
     posted w p).
Proof.
  intros H. unfold attempt_body, try_body, bind, post. rewrite H.
  now destruct (attempt =? 2)%nat.
Qed.

Lemma attempt_body_success attempt (p : payload) (w : world)
      (r : response) (text : pystr) :
  net (List.length (sent w)) p = PostResponse r ->
  status_code r = 200%Z -> choice_content r = Val text ->
  attempt_body net attempt p w = (Val (Return (strip text)), posted w p).
Proof.
  intros H Hs Hc. unfold attempt_body, try_body, bind, post, eval, ret.
  rewrite H, Hs, Hc. reflexivity.
Qed.

Lemma attempt_body_decommissioned attempt (p : payload) (w : world) :
  decommission_signal (net (List.length (sent w)) p) = true ->
  attempt_body net attempt p w =
    (Val (Next (set_model p FALLBACK_MODELS_0)), substituted w p).
Proof.
  unfold decommission_signal.
  destruct (net (List.length (sent w)) p) as [e|r] eqn:H; [discriminate|].
  intros Hd. apply andb_true_iff in Hd as [Hs Hm].
  destruct (error_message r) as [msg|e] eqn:He; [|discriminate].
  apply Z.eqb_eq in Hs.
  unfold attempt_body, try_body, bind, post, eval, ret, set_ACTIVE_MODEL.
  rewrite H, Hs, He, Hm. reflexivity.
Qed.

(** Every pass through the loop body posts the payload once, and writes
    [ACTIVE_MODEL] only in the decommission branch. *)
Lemma attempt_body_effect attempt (p : payload) (w : world) :
  sent (snd (attempt_body net attempt p w)) = sent w ++ [p]
  /\ (ACTIVE_MODEL (snd (attempt_body net attempt p w)) = ACTIVE_MODEL w
      \/ (ACTIVE_MODEL (snd (attempt_body net attempt p w)) = FALLBACK_MODELS_0
          /\ decommission_signal (net (List.length (sent w)) p) = true)).
Proof.
  unfold attempt_body, try_body, bind, post, eval, ret, set_ACTIVE_MODEL,
    api_error, decommission_signal.
  destruct (net (List.length (sent w)) p) as [[e|e]|r]; simpl.
  - destruct (attempt =? 2)%nat; simpl; auto.
  - auto.
  - destruct (status_code r =? 200)%Z.
    + destruct (choice_content r) as [text|[e|e]]; simpl; auto.
      destruct (attempt =? 2)%nat; simpl; auto.
    + destruct (status_code r =? 400)%Z; simpl; auto.
      destruct (error_message r) as [msg|[e|e]]; simpl; auto.
      * destruct (model_invalid msg); simpl; auto.
      * destruct (attempt =? 2)%nat; simpl; auto.
Qed.

End RemoteFacts.

Section CallFacts.

Variable net : nat -> payload -> post_outcome.

Lemma retry_loop_cons attempt (rest : list nat) (p : payload) (w : world) :
  retry_loop net (attempt :: rest) p w =
    match attempt_body net attempt p w with
    | (Val (Return text), w') => (Val text, w')
    | (Val (Next p'), w') => retry_loop net rest p' w'
    | (Exc e, w') => (Exc e, w')
    end.
Proof.
  simpl. unfold bind.
  destruct (attempt_body net attempt p w) as [[[text|p']|e] w']; reflexivity.
Qed.

Lemma posted_length (w : world) (p : payload) :
  List.length (sent (posted w p)) = (List.length (sent w) + 1)%nat.
Proof. simpl. now rewrite length_app. Qed.

Lemma substituted_length (w : world) (p : payload) :
  List.length (sent (substituted w p)) = (List.length (sent w) + 1)%nat.
Proof. simpl. now rewrite length_app. Qed.

Lemma retry_loop_decommissioned attempt (rest : list nat) (p : payload) (w : world) :
  decommission_signal (net (List.length (sent w)) p) = true ->
  retry_loop net (attempt :: rest) p w =
    retry_loop net rest (set_model p FALLBACK_MODELS_0) (substituted w p).
Proof.
  intros H. rewrite retry_loop_cons.
  now rewrite (attempt_body_decommissioned net attempt p w H).
Qed.

(** C5: when the three attempts of a call all end in a transport failure,
    the call returns "Network Error: " followed by the text of the third
    failure, after exactly three requests, all carrying the same payload. *)
Theorem call_groq_api_network_error
        (messages : list message) (max_tokens : Z) (w : world)
        (e1 e2 e3 : pystr) :
  let p := new_payload (ACTIVE_MODEL w) messages max_tokens in
  let n := List.length (sent w) in
  net n p = PostRaises (RequestException e1) ->
  net (n + 1)%nat p = PostRaises (RequestException e2) ->
  net (n + 2)%nat p = PostRaises (RequestException e3) ->
  call_groq_api net messages max_tokens w =
    (Val (lit "Network Error: " ++ e3),
     {| ACTIVE_MODEL := ACTIVE_MODEL w; sent := sent w ++ [p; p; p] |}).
Proof.
  intros p n H1 H2 H3. unfold call_groq_api. fold p. cbn [seq].
  rewrite retry_loop_cons, (attempt_body_transport net 0 p w e1 H1).
  cbn [Nat.eqb].
  rewrite retry_loop_cons.
  rewrite (attempt_body_transport net 1 p (posted w p) e2)
    by (rewrite posted_length; exact H2).
  cbn [Nat.eqb].
  rewrite retry_loop_cons.
  rewrite (attempt_body_transport net 2 p (posted (posted w p) p) e3)
    by (rewrite !posted_length, <- Nat.add_assoc; exact H3).
  cbn [Nat.eqb]. unfold posted; simpl.
  now rewrite <- !app_assoc.
Qed.

(** C3: a response with status 400 whose error message contains
    "decommissioned" or "not found" makes the loop body set [ACTIVE_MODEL]
    to the first fallback, put that model into the payload, and go on with
    the attempts that remain; when the first response of a call is such a
    response and the second is a success, the call posts twice -- the
    second time with the substituted model -- and returns the trimmed text;
    three such responses use up the three attempts. *)
Theorem call_groq_api_decommissioned :
  (forall attempt rest (q : payload) (v : world),
      decommission_signal (net (List.length (sent v)) q) = true ->
      attempt_body net attempt q v =
        (Val (Next (set_model q FALLBACK_MODELS_0)), substituted v q)
      /\ retry_loop net (attempt :: rest) q v =
           retry_loop net rest (set_model q FALLBACK_MODELS_0) (substituted v q)
      /\ model (set_model q FALLBACK_MODELS_0) = FALLBACK_MODELS_0
      /\ ACTIVE_MODEL (substituted v q) = FALLBACK_MODELS_0
      /\ sent (substituted v q) = sent v ++ [q])
  /\ (forall (messages : list message) (max_tokens : Z) (w : world)
             (r : response) (text : pystr),
        let p := new_payload (ACTIVE_MODEL w) messages max_tokens in
        let p' := set_model p FALLBACK_MODELS_0 in
        let n := List.length (sent w) in
        decommission_signal (net n p) = true ->
        net (n + 1)%nat p' = PostResponse r ->
        status_code r = 200%Z -> choice_content r = Val text ->
        call_groq_api net messages max_tokens w =
          (Val (strip text),
           {| ACTIVE_MODEL := FALLBACK_MODELS_0; sent := sent w ++ [p; p'] |}))
  /\ (forall (messages : list message) (max_tokens : Z) (w : world),
        let p := new_payload (ACTIVE_MODEL w) messages max_tokens in
        let p' := set_model p FALLBACK_MODELS_0 in
        let n := List.length (sent w) in
        decommission_signal (net n p) = true ->
        decommission_signal (net (n + 1)%nat p') = true ->
        decommission_signal (net (n + 2)%nat p') = true ->
        call_groq_api net messages max_tokens w =
          (Val (lit "API Error: Failed after retries"),
           {| ACTIVE_MODEL := FALLBACK_MODELS_0;
              sent := sent w ++ [p; p'; p'] |})).
Proof.
  split; [|split].
  - intros attempt rest q v H. repeat split.
    + now apply attempt_body_decommissioned.
    + now apply retry_loop_decommissioned.
  - intros messages max_tokens w r text p p' n H1 H2 Hs Hc.
    unfold call_groq_api. fold p. cbn [seq].
    rewrite (retry_loop_decommissioned 0 _ p w H1). fold p'.
    rewrite retry_loop_cons.
    rewrite (attempt_body_success net 1 p' (substituted w p) r text)
      by (try rewrite substituted_length; assumption).
    unfold posted, substituted; simpl. now rewrite <- app_assoc.
  - intros messages max_tokens w p p' n H1 H2 H3.
    unfold call_groq_api. fold p. cbn [seq].
    rewrite (retry_loop_decommissioned 0 _ p w H1). fold p'.
    rewrite (retry_loop_decommissioned 1 _ p' (substituted w p))
      by (rewrite substituted_length; exact H2).
    change (set_model p' FALLBACK_MODELS_0) with p'.
    rewrite (retry_loop_decommissioned 2 _ p' (substituted (substituted w p) p'))
      by (rewrite !substituted_length, <- Nat.add_assoc; exact H3).
    unfold substituted; simpl. unfold ret. now rewrite <- !app_assoc.
Qed.

End CallFacts.

(** ** The active model across a session *)

Section SessionFacts.

Variable net : nat -> payload -> post_outcome.

Lemma nth_error_middle {A} (l : list A) (x : A) (r : list A) :
  nth_error (l ++ x :: r) (List.length l + 0) = Some x.
Proof.
  rewrite Nat.add_0_r, nth_error_app2 by lia.
  now rewrite Nat.sub_diag.
Qed.

Lemma retry_loop_effect (attempts : list nat) :
  forall (p : payload) (w : world),
    (exists ps, sent (snd (retry_loop net attempts p w)) = sent w ++ ps
                /\ (List.length ps <= List.length attempts)%nat)
    /\ written_by_decommission net (List.length attempts) w
                               (snd (retry_loop net attempts p w)).
Proof.
  unfold written_by_decommission.
  induction attempts as [|attempt rest IH]; intros p w.
  - simpl. split; [exists []; rewrite app_nil_r; auto | auto].
  - rewrite retry_loop_cons.
    destruct (attempt_body_effect net attempt p w) as [Hsent Hact].
    destruct (attempt_body net attempt p w) as [[[text|p']|e] w1];
      cbn [snd] in *.
    + split; [exists [p]; simpl; split; [assumption | lia]|].
      destruct Hact as [Hact|[Hact Hsig]]; [now left|right].
      split; [assumption|]. exists 0%nat, p. rewrite Hsent.
      repeat split; [simpl; lia | apply nth_error_middle |].
      now rewrite Nat.add_0_r.
    + destruct (IH p' w1) as [(ps & Hps & Hlen) Hrest].
      rewrite Hsent in Hps.
      split.
      { exists (p :: ps). rewrite Hps, <- app_assoc. simpl. split; [reflexivity | lia]. }
      destruct Hrest as [Hrest|[Hrest (i & q & Hi & Hnth & Hsig)]].
      * rewrite Hrest.
        destruct Hact as [Hact|[Hact Hsig]]; [now left|right].
        split; [assumption|]. exists 0%nat, p. rewrite Hps, <- app_assoc.
        repeat split; [simpl; lia | apply nth_error_middle |].
        now rewrite Nat.add_0_r.
      * right. split; [assumption|]. exists (S i), q.
        rewrite Hsent, length_app in Hnth, Hsig. simpl in Hnth, Hsig.
        replace (List.length (sent w) + S i)%nat
          with (List.length (sent w) + 1 + i)%nat by lia.
        repeat split; [simpl; lia | assumption | assumption].
    + split; [exists [p]; simpl; split; [assumption | lia]|].
      destruct Hact as [Hact|[Hact Hsig]]; [now left|right].
      split; [assumption|]. exists 0%nat, p. rewrite Hsent.
      repeat split; [simpl; lia | apply nth_error_middle |].
      now rewrite Nat.add_0_r.
Qed.

Lemma call_groq_api_known (messages : list message) (max_tokens : Z) (w : world) :
  known_model (ACTIVE_MODEL w) ->
  known_model (ACTIVE_MODEL (snd (call_groq_api net messages max_tokens w))).
Proof.
  intros Hk. unfold call_groq_api.
  destruct (retry_loop_effect (seq 0 3)
              (new_payload (ACTIVE_MODEL w) messages max_tokens) w)
    as [_ [H|[H _]]]; rewrite H; [assumption|].
  right. exact FALLBACK_MODELS_0_in.
Qed.

Lemma session_known (calls : list (list message * Z)) :
  forall w, known_model (ACTIVE_MODEL w) ->
            known_model (ACTIVE_MODEL (session net calls w)).
Proof.
  induction calls as [|[messages max_tokens] rest IH]; intros w Hk; simpl.
  - assumption.
  - apply IH. now apply call_groq_api_known.
Qed.

(** C9: the model chosen at startup is the preferred model or one of the
    fallbacks, it remains so through every completion call of a session,
    and a call changes [ACTIVE_MODEL] only through the decommission branch:
    after a call it is what it was, or it is the first fallback and one of
    the call's at most three requests was answered by a decommission
    signal. *)
Theorem active_model_invariant (probe : get_outcome)
        (calls : list (list message * Z)) :
  known_model (ACTIVE_MODEL (startup probe))
  /\ known_model (ACTIVE_MODEL (session net calls (startup probe)))
  /\ (forall (messages : list message) (max_tokens : Z) (w : world),
        known_model (ACTIVE_MODEL w) ->
        known_model (ACTIVE_MODEL (snd (call_groq_api net messages max_tokens w))))
  /\ (forall (messages : list message) (max_tokens : Z) (w : world),
        written_by_decommission net 3 w
          (snd (call_groq_api net messages max_tokens w))).
Proof.
  split; [|split; [|split]].
  - apply get_active_model_known.
  - apply session_known. apply get_active_model_known.
  - apply call_groq_api_known.
  - intros messages max_tokens w. unfold call_groq_api.
    exact (proj2 (retry_loop_effect (seq 0 3)
                    (new_payload (ACTIVE_MODEL w) messages max_tokens) w)).
Qed.

End SessionFacts.

(** ** Translation *)

Section TranslationFacts.

Variable net : nat -> payload -> post_outcome.
Variable lower upper : pystr -> pystr.

(** C7: with language code "en" the text comes back trimmed -- by
    removing whitespace before and after it, nothing else -- with
    confidence 100, and the world is untouched: no request is posted. *)
Theorem translate_to_english_en (text : pystr) (w : world) :
  translate_to_english net lower upper text (lit "en") w
    = (Val (strip text, 100), w)
  /\ sent (snd (translate_to_english net lower upper text (lit "en") w)) = sent w
  /\ exists before after,
       text = before ++ strip text ++ after
       /\ forallb isspace before = true /\ forallb isspace after = true
       /\ match strip text with [] => True | c :: _ => isspace c = false end
       /\ match rev (strip text) with [] => True | c :: _ => isspace c = false end.
Proof.
  split; [reflexivity|]. split; [reflexivity|]. apply strip_decompose.
Qed.

Lemma word_confidence_cases (translation : pystr) :
  let words := List.length (split translation) in
  ((words < 3)%nat /\ word_confidence translation = 80)
  \/ ((3 <= words < 6)%nat /\ word_confidence translation = 90)
  \/ ((6 <= words)%nat /\ word_confidence translation = 95).
Proof.
  cbv zeta. unfold word_confidence.
  destruct (Nat.leb_spec 3 (List.length (split translation)));
    destruct (Nat.leb_spec 6 (List.length (split translation)));
    try lia; auto.
Qed.

(** C4: for a language code other than "en", the confidence returned with
    a translation is fixed by the translation alone.  Before the penalty
    it is 80, 90 or 95, according to whether the word count is below 3, from
    3 to 5, or at least 6.  When the lowered translation contains "error",
    "failed" or "http", 15 is subtracted, with 60 as floor; otherwise the
    value is kept.  The result is never below 60. *)
Theorem translate_to_english_confidence
        (text lang_code : pystr) (w w' : world) (translation : pystr) (c : Q) :
  lang_code <> lit "en" ->
  translate_to_english net lower upper text lang_code w
    = (Val (translation, c), w') ->
  let words := List.length (split translation) in
  let before_penalty := word_confidence translation in
  (before_penalty = 80 \/ before_penalty = 90 \/ before_penalty = 95)
  /\ ((words < 3)%nat -> before_penalty = 80)
  /\ ((3 <= words < 6)%nat -> before_penalty = 90)
  /\ ((6 <= words)%nat -> before_penalty = 95)
  /\ (leaked_error lower translation = true ->
      c = py_max (before_penalty - 15) 60 /\ c = before_penalty - 15)
  /\ (leaked_error lower translation = false -> c = before_penalty)
  /\ 60 <= c.
Proof.
  intros Hlang Hrun words before_penalty.
  assert (Hc : c = penalty lower translation (word_confidence translation)).
  { unfold translate_to_english in Hrun.
    apply eqb_neq in Hlang. rewrite Hlang in Hrun.
    unfold bind, ret in Hrun.
    destruct (call_groq_api net _ 300 w) as [[t|e] w1]; [|discriminate].
    now injection Hrun as <- <- <-. }
  subst c. unfold penalty. fold before_penalty.
  destruct (word_confidence_cases translation) as [[Hw E]|[[Hw E]|[Hw E]]];
    fold words in Hw; fold before_penalty in E; rewrite E;
    (repeat split; intros; try lia; auto;
     try match goal with
         | H : leaked_error _ _ = _ |- _ => rewrite H; reflexivity
         end);
    destruct (leaked_error lower translation); vm_compute; discriminate.
Qed.

End TranslationFacts.

(** With the service answering 500, the "translation" is the error text
    "API Error: 500": three words, so 90 before the penalty, and 75 after
    it because the text contains "error". *)
Lemma translate_to_english_confidence_witness :
  word_confidence (lit "API Error: 500") = 90
  /\ 75 = word_confidence (lit "API Error: 500") - 15.
Proof.
  pose (w := {| ACTIVE_MODEL := MODEL; sent := [] |}).
  pose proof (translate_to_english_confidence
                net_unavailable ascii_lower ascii_upper
                (lit "Donde esta mi pedido") (lit "es")
                w (snd (translate_to_english net_unavailable ascii_lower
                          ascii_upper (lit "Donde esta mi pedido") (lit "es") w))
                (lit "API Error: 500") 75) as H.
  cbv zeta in H.
  assert (Hlang : lit "es" <> lit "en").
  { intros E. apply eqb_eq in E. vm_compute in E. discriminate. }
  specialize (H Hlang eq_refl).
  destruct H as (_ & _ & H90 & _ & Hleak & _).
  split.
  - apply H90. vm_compute. lia.
  - apply Hleak. reflexivity.
Defined.

(** ** Runs against the example services *)

Lemma call_groq_api_network_error_witness :
  call_groq_api net_down [] 500 fresh_world =
    (Val (lit "Network Error: Connection timed out"),
     {| ACTIVE_MODEL := MODEL;
        sent := [ new_payload MODEL [] 500; new_payload MODEL [] 500;
                  new_payload MODEL [] 500 ] |}).
Proof.
  exact (call_groq_api_network_error net_down [] 500 fresh_world
           (lit "Connection timed out") (lit "Connection timed out")
           (lit "Connection timed out") eq_refl eq_refl eq_refl).
Defined.

Lemma call_groq_api_decommissioned_witness :
  call_groq_api net_model_retired [] 500 fresh_world =
    (Val (lit "Where is my order?"),
     {| ACTIVE_MODEL := FALLBACK_MODELS_0;
        sent := [ new_payload MODEL [] 500;
                  new_payload FALLBACK_MODELS_0 [] 500 ] |}).
Proof.
  exact (proj1 (proj2 (call_groq_api_decommissioned net_model_retired))
           [] 500%Z fresh_world
           {| status_code := 200;
              choice_content := Val (lit " Where is my order? ");
              error_message := Val [] |}
           (lit " Where is my order? ")
           eq_refl eq_refl eq_refl eq_refl).
Defined.

Lemma active_model_invariant_witness :
  known_model
    (ACTIVE_MODEL (snd (call_groq_api net_model_retired [] 500 fresh_world))).
Proof.
  refine (proj1 (proj2 (proj2
            (active_model_invariant net_model_retired (GetRaises (OtherException [])) [])))
          [] 500%Z fresh_world _).
  left. reflexivity.
Defined.

(** ** Metrics summary *)

Section DictFacts.

Import TranslationMetrics.
Local Open Scope nat_scope.

Context {V : Type}.

Lemma eqb_sym (a b : pystr) : eqb a b = eqb b a.
Proof.
  destruct (eqb_spec a b) as [->|Hn].
  - now rewrite eqb_refl.
  - symmetry. apply eqb_neq. congruence.
Qed.

Lemma dict_get_set (d : list (pystr * V)) (k k2 : pystr) (v default : V) :
  dict_get (dict_set d k v) k2 default =
    if eqb k k2 then v else dict_get d k2 default.
Proof.
  induction d as [|[k' v'] d IH]; simpl; [reflexivity|].
  destruct (eqb_spec k' k) as [->|Hn]; simpl.
  - destruct (eqb k k2); reflexivity.
  - rewrite IH. destruct (eqb_spec k' k2) as [->|Hn2]; [|reflexivity].
    assert (E : eqb k k2 = false) by (apply eqb_neq; congruence).
    now rewrite E.
Qed.

Lemma dict_set_keys (d : list (pystr * V)) (k : pystr) (v : V) :
  map fst (dict_set d k v) =
    if mem k (map fst d) then map fst d else map fst d ++ [k].
Proof.
  induction d as [|[k' v'] d IH]; simpl; [reflexivity|].
  rewrite (eqb_sym k k').
  destruct (eqb k' k); simpl; [reflexivity|].
  rewrite IH. now destruct (mem k (map fst d)).
Qed.

Lemma dict_get_in (d : list (pystr * V)) (k : pystr) (v default : V) :
  NoDup (map fst d) -> In (k, v) d -> dict_get d k default = v.
Proof.
  induction d as [|[k' v'] d IH]; simpl; intros Hnd Hin; [contradiction|].
  inversion Hnd as [|? ? Hnotin Hnd']; subst.
  destruct Hin as [E|Hin].
  - injection E as -> ->. now rewrite eqb_refl.
  - destruct (eqb_spec k' k) as [->|Hn]; [|now apply IH].
    destruct Hnotin. change k with (fst (k, v)). now apply in_map.
Qed.

End DictFacts.

Section MetricsFacts.

Import TranslationMetrics.
Local Open Scope nat_scope.

Lemma count_languages_snoc (qs : list query) (q : query) :
  count_languages (qs ++ [q]) =
    dict_set (count_languages qs) (language q)
             (dict_get (count_languages qs) (language q) 0 + 1).
Proof. unfold count_languages. now rewrite fold_left_app. Qed.

Lemma count_language_snoc (lang : pystr) (qs : list query) (q : query) :
  count_language lang (qs ++ [q]) =
    count_language lang qs + (if eqb (language q) lang then 1 else 0).
Proof.
  unfold count_language. rewrite filter_app, length_app. simpl.
  now destruct (eqb (language q) lang).
Qed.

Lemma count_languages_get (qs : list query) (lang : pystr) :
  dict_get (count_languages qs) lang 0 = count_language lang qs.
Proof.
  induction qs as [|q qs IH] using rev_ind; [reflexivity|].
  rewrite count_languages_snoc, dict_get_set, count_language_snoc.
  destruct (eqb_spec (language q) lang) as [->|Hn]; lia.
Qed.

Lemma count_languages_keys_snoc (qs : list query) (q : query) :
  map fst (count_languages (qs ++ [q])) =
    if mem (language q) (map fst (count_languages qs))
    then map fst (count_languages qs)
    else map fst (count_languages qs) ++ [language q].
Proof. rewrite count_languages_snoc. apply dict_set_keys. Qed.

Lemma count_languages_keys (qs : list query) (lang : pystr) :
  In lang (map fst (count_languages qs)) <-> In lang (map language qs).
Proof.
  induction qs as [|q qs IH] using rev_ind; [reflexivity|].
  rewrite count_languages_keys_snoc, map_app, in_app_iff. simpl.
  destruct (mem (language q) (map fst (count_languages qs))) eqn:Hm.
  - apply mem_In in Hm. rewrite <- IH. intuition (subst; auto).
  - rewrite in_app_iff, IH. simpl. tauto.
Qed.

Lemma count_languages_NoDup (qs : list query) :
  NoDup (map fst (count_languages qs)).
Proof.
  induction qs as [|q qs IH] using rev_ind; [constructor|].
  rewrite count_languages_keys_snoc.
  destruct (mem (language q) (map fst (count_languages qs))) eqn:Hm; [assumption|].
  apply NoDup_app; [assumption | repeat constructor; intros [] |].
  intros x Hx [<-|[]]. apply mem_In in Hx. congruence.
Qed.

Lemma count_language_pos (lang : pystr) (qs : list query) :
  0 < count_language lang qs <-> In lang (map language qs).
Proof.
  unfold count_language. induction qs as [|q qs IH]; simpl; [split; [lia|tauto]|].
  destruct (eqb_spec (language q) lang) as [->|Hn]; simpl.
  - split; [auto | lia].
  - rewrite IH. split; [auto | intros [E|H]; [contradiction | assumption]].
Qed.

Lemma first_seen_app_in (lang : pystr) (qs rest : list query) :
  In lang (map language qs) ->
  first_seen lang (qs ++ rest) = first_seen lang qs
  /\ first_seen lang qs < List.length qs.
Proof.
  induction qs as [|q qs IH]; simpl; [contradiction|].
  destruct (eqb_spec (language q) lang) as [->|Hn]; [lia|].
  intros [E|H]; [contradiction|]. destruct (IH H). lia.
Qed.

Lemma first_seen_app_notin (lang : pystr) (qs rest : list query) :
  ~ In lang (map language qs) ->
  first_seen lang (qs ++ rest) = List.length qs + first_seen lang rest.
Proof.
  induction qs as [|q qs IH]; simpl; [reflexivity|].
  intros H. destruct (eqb_spec (language q) lang) as [E|Hn]; [tauto|].
  rewrite IH by tauto. reflexivity.
Qed.

Lemma StronglySorted_snoc {A} (R : A -> A -> Prop) (l : list A) (x : A) :
  StronglySorted R l -> Forall (fun y => R y x) l -> StronglySorted R (l ++ [x]).
Proof.
  induction 1 as [|y l Hs IH Hy]; simpl; intros Hx.
  - repeat constructor.
  - inversion Hx; subst. constructor; [auto|].
    apply Forall_app. split; [assumption | repeat constructor; assumption].
Qed.

Lemma StronglySorted_weaken {A} (R R' : A -> A -> Prop) (l : list A) :
  (forall a b, In a l -> In b l -> R a b -> R' a b) ->
  StronglySorted R l -> StronglySorted R' l.
Proof.
  intros Himp Hs. induction Hs as [|x l Hs IH Hx]; constructor.
  - apply IH. intros a b Ha Hb. apply Himp; now right.
  - rewrite Forall_forall in *. intros b Hb.
    apply Himp; [now left | now right | auto].
Qed.

Lemma StronglySorted_of_map {A B} (f : A -> B) (R : B -> B -> Prop) (l : list A) :
  StronglySorted R (map f l) -> StronglySorted (fun a b => R (f a) (f b)) l.
Proof.
  induction l as [|x l IH]; simpl; intros H; [constructor|].
  inversion H as [|? ? Hs Hx]; subst. constructor; [auto|].
  rewrite Forall_map in Hx. exact Hx.
Qed.

(** The keys of the dict stand in the order in which the languages were
    first seen. *)
Lemma count_languages_first_seen (qs : list query) :
  StronglySorted (fun a b => first_seen a qs < first_seen b qs)
                 (map fst (count_languages qs)).
Proof.
  induction qs as [|q qs IH] using rev_ind; [constructor|].
  assert (Hold : StronglySorted
                   (fun a b => first_seen a (qs ++ [q]) < first_seen b (qs ++ [q]))
                   (map fst (count_languages qs))).
  { refine (StronglySorted_weaken _ _ _ _ IH). intros a b Ha Hb Hab.
    apply count_languages_keys in Ha, Hb.
    destruct (first_seen_app_in a qs [q] Ha) as [-> _].
    destruct (first_seen_app_in b qs [q] Hb) as [-> _]. exact Hab. }
  rewrite count_languages_keys_snoc.
  destruct (mem (language q) (map fst (count_languages qs))) eqn:Hm; [assumption|].
  apply StronglySorted_snoc; [assumption|].
  apply Forall_forall. intros a Ha.
  assert (Hnew : ~ In (language q) (map language qs)).
  { intros H. apply count_languages_keys, mem_In in H. congruence. }
  apply count_languages_keys in Ha.
  destruct (first_seen_app_in a qs [q] Ha) as [-> Hlt].
  rewrite (first_seen_app_notin (language q) qs [q] Hnew). lia.
Qed.

(** *** The stable descending sort *)

Lemma insert_desc_perm (x : pystr * nat) (l : list (pystr * nat)) :
  Permutation (insert_desc x l) (x :: l).
Proof.
  induction l as [|y l IH]; simpl; [reflexivity|].
  destruct (snd x <? snd y); [|reflexivity].
  rewrite IH. apply perm_swap.
Qed.

Lemma sorted_desc_perm (l : list (pystr * nat)) : Permutation (sorted_desc l) l.
Proof.
  induction l as [|x l IH]; simpl; [reflexivity|].
  rewrite insert_desc_perm. now constructor.
Qed.

Section Stable.

Variable before : pystr * nat -> pystr * nat -> Prop.

Lemma insert_desc_stable (x : pystr * nat) (s : list (pystr * nat)) :
  StronglySorted (stable_order before) s -> Forall (before x) s ->
  StronglySorted (stable_order before) (insert_desc x s).
Proof.
  induction 1 as [|y s Hs IH Hy]; simpl; intros Hx.
  - repeat constructor.
  - inversion Hx as [|? ? Hxy Hxs]; subst.
    destruct (Nat.ltb_spec (snd x) (snd y)) as [Hlt|Hge].
    + constructor; [auto|].
      eapply Permutation_Forall; [symmetry; apply insert_desc_perm|].
      constructor; [left; assumption | assumption].
    + constructor; [constructor; assumption|].
      constructor.
      * unfold stable_order. destruct (Nat.eq_dec (snd x) (snd y)); [right | left]; auto; lia.
      * rewrite Forall_forall in *. intros z Hz.
        specialize (Hy z Hz). specialize (Hxs z Hz). unfold stable_order in *.
        destruct (Nat.eq_dec (snd x) (snd z)); [right; auto | left; lia].
Qed.

Lemma sorted_desc_stable (l : list (pystr * nat)) :
  StronglySorted before l -> StronglySorted (stable_order before) (sorted_desc l).
Proof.
  induction 1 as [|x l Hs IH Hx]; simpl; [constructor|].
  apply insert_desc_stable; [assumption|].
  eapply Permutation_Forall; [symmetry; apply sorted_desc_perm | assumption].
Qed.

End Stable.

End MetricsFacts.

Section SummaryFacts.

Import TranslationMetrics.

(** C6: without records the summary is the "empty" notice; with records
    it holds the number of records; the mean confidence and the mean
    response time, each the sum of the logged doubles divided by the number
    of records, in double arithmetic; and one entry per language with its
    number of records, larger counts first and, among equal counts, the
    language seen first in the log; the object is left as it was.
    Confidences 80, 90 and 100 give the mean 90.0. *)
Theorem show_summary_spec (py : runtime) (self : t) (now : Z) :
  snd (show_summary py self now) = self
  /\ (queries self = [] -> fst (show_summary py self now) = None)
  /\ (queries self <> [] ->
      exists v,
        fst (show_summary py self now) = Some v
        /\ total_queries v = List.length (queries self)
        /\ (0 < total_queries v)%nat
        /\ avg_conf v
           = PrimFloat.div
               (sum py (map to_float (map confidence (queries self))))
               (float_of_Z (Z.of_nat (total_queries v)))
        /\ avg_time v
           = PrimFloat.div
               (sum py (map to_float (map response_time (queries self))))
               (float_of_Z (Z.of_nat (total_queries v)))
        /\ (forall lang count,
              In (lang, count) (language_distribution v) <->
              count = count_language lang (queries self) /\ (0 < count)%nat)
        /\ NoDup (map fst (language_distribution v))
        /\ StronglySorted (distribution_order (queries self))
                          (language_distribution v)
        /\ (map confidence (queries self) = [80; 90; 100] ->
            avg_conf v = float_of_Z 90)).
Proof.
  split; [|split].
  - unfold show_summary. now destruct (queries self).
  - unfold show_summary. now intros ->.
  - intros Hne. unfold show_summary.
    destruct (queries self) as [|q0 qs0] eqn:Eq; [congruence|].
    rewrite <- Eq. clear Hne.
    assert (Hlen : (0 < List.length (queries self))%nat) by (rewrite Eq; simpl; lia).
    pose proof (sorted_desc_perm (count_languages (queries self))) as Hperm.
    eexists. split; [reflexivity|]. cbn [total_queries avg_conf avg_time
                                          language_distribution fst].
    split; [reflexivity|]. split; [exact Hlen|]. split; [reflexivity|].
    split; [reflexivity|].
    split; [|split; [|split]].
    + intros lang count. split.
      * intros Hin. apply (Permutation_in _ Hperm) in Hin.
        assert (Hk : In lang (map fst (count_languages (queries self)))).
        { change lang with (fst (lang, count)). now apply in_map. }
        apply count_languages_keys, count_language_pos in Hk.
        rewrite <- (count_languages_get (queries self) lang) in Hk |- *.
        rewrite (dict_get_in _ _ count 0%nat (count_languages_NoDup _) Hin) in Hk |- *.
        auto.
      * intros [-> Hpos].
        apply count_language_pos, count_languages_keys, in_map_iff in Hpos
          as ([lang' c] & E & Hin). simpl in E. subst lang'.
        apply (Permutation_in _ (Permutation_sym Hperm)).
        rewrite <- (count_languages_get (queries self) lang).
        now rewrite (dict_get_in _ _ c 0%nat (count_languages_NoDup _) Hin).
    + eapply Permutation_NoDup;
        [apply Permutation_map, Permutation_sym, Hperm | apply count_languages_NoDup].
    + apply (sorted_desc_stable
               (fun a b => (first_seen (fst a) (queries self)
                            < first_seen (fst b) (queries self))%nat)).
      apply StronglySorted_of_map with (f := fst)
        (R := fun a b => (first_seen a (queries self) < first_seen b (queries self))%nat).
      apply count_languages_first_seen.
    + intros Hc.
      assert (Hn : List.length (queries self) = 3%nat).
      { rewrite <- (length_map confidence), Hc. reflexivity. }
      rewrite Hc, Hn. now destruct py.
Qed.

End SummaryFacts.

(** ** Examples *)

(** Hindi and Spanish both have two records; Hindi was seen first. *)
Example sample_metrics_distribution :
  option_map TranslationMetrics.language_distribution
             (fst (TranslationMetrics.show_summary TranslationMetrics.CPython311
                     sample_metrics 42000000))
  = Some [(lit "Hindi", 2%nat); (lit "Spanish", 2%nat); (lit "French", 1%nat)].
Proof. reflexivity. Qed.

Lemma show_summary_spec_witness :
  exists v,
    fst (TranslationMetrics.show_summary TranslationMetrics.CPython312
           sample_metrics 42000000) = Some v
    /\ TranslationMetrics.total_queries v = 5%nat
    /\ TranslationMetrics.avg_conf v = TranslationMetrics.float_of_Z 90
    /\ TranslationMetrics.avg_time v = TranslationMetrics.to_float (3 # 2).
Proof.
  destruct (show_summary_spec TranslationMetrics.CPython312 sample_metrics 42000000)
    as (_ & _ & H).
  destruct H as (v & Hv & Htotal & _ & Hconf & Htime & _).
  - discriminate.
  - exists v. split; [exact Hv|]. split; [exact Htotal|].
    rewrite Htotal in Hconf, Htime. split; [exact Hconf | exact Htime].
Defined.

(** The marker counts ignore repetitions and word boundaries: in
    "ला ला है" the Marathi marker "ला" stands twice and the Hindi marker "है"
    once, the counts are 1 and 1, and the result is "hi"; "लाल" is one word,
    which contains "ला", and the result is "mr". *)
Example marker_count_ignores_repeats :
  let text := [0x0932; 0x093E; 0x20; 0x0932; 0x093E; 0x20; 0x0939; 0x0948]%N in
  marathi_count text = 1%nat /\ hindi_count text = 1%nat
  /\ detect_language (fun _ => Val (lit "mr")) text = Val (lit "hi").
Proof. repeat split. Qed.

Example marker_count_inside_words :
  let text := [0x0932; 0x093E; 0x0932]%N in
  split text = [text]
  /\ marathi_count text = 1%nat /\ hindi_count text = 0%nat
  /\ detect_language (fun _ => Val (lit "hi")) text = Val (lit "mr").
Proof. repeat split. Qed.

(* ================================================================== *)
(** * Further properties *)
(* ================================================================== *)

(** ** Language detection: scripts *)

Ltac solve_not_space :=
  unfold isspace;
  repeat (apply orb_false_intro);
  try (apply N.eqb_neq; lia);
  apply andb_false_iff;
  first [left; apply N.leb_gt; lia | right; apply N.leb_gt; lia].

Lemma range_not_blank (lo hi : N) (text : pystr) :
  (forall c, (lo <= c <= hi)%N -> isspace c = false) ->
  re_search_range lo hi text = true -> strip text <> [].
Proof.
  intros Hrange H E. apply strip_nil in E.
  unfold re_search_range in H.
  apply existsb_exists in H as (c & Hin & Hc).
  apply andb_true_iff in Hc as [H1 H2].
  apply N.leb_le in H1. apply N.leb_le in H2.
  rewrite forallb_forall in E. specialize (E c Hin).
  rewrite (Hrange c (conj H1 H2)) in E. discriminate.
Qed.

Lemma has_cyrillic_not_blank (text : pystr) :
  has_cyrillic text = true -> strip text <> [].
Proof. apply range_not_blank. intros c Hc. solve_not_space. Qed.

Lemma has_chinese_not_blank (text : pystr) :
  has_chinese text = true -> strip text <> [].
Proof. apply range_not_blank. intros c Hc. solve_not_space. Qed.

Lemma has_korean_not_blank (text : pystr) :
  has_korean text = true -> strip text <> [].
Proof. apply range_not_blank. intros c Hc. solve_not_space. Qed.

Lemma has_japanese_not_blank (text : pystr) :
  has_japanese text = true -> strip text <> [].
Proof. apply range_not_blank. intros c Hc. solve_not_space. Qed.

(** X1: the script tests are tried in a fixed order and the first that
    matches decides, whatever else the text contains and whatever the
    statistical detector would say: a Cyrillic code point gives "ru"; else
    a CJK ideograph gives "zh"; else a Hangul syllable gives "ko"; else a
    kana gives "ja". *)
Theorem detect_language_script_priority detect (text : pystr) :
  (has_cyrillic text = true -> detect_language detect text = Val (lit "ru"))
  /\ (has_cyrillic text = false -> has_chinese text = true ->
      detect_language detect text = Val (lit "zh"))
  /\ (has_cyrillic text = false -> has_chinese text = false ->
      has_korean text = true ->
      detect_language detect text = Val (lit "ko"))
  /\ (has_cyrillic text = false -> has_chinese text = false ->
      has_korean text = false -> has_japanese text = true ->
      detect_language detect text = Val (lit "ja")).
Proof.
  unfold detect_language. repeat split.
  - intros H. pose proof (has_cyrillic_not_blank text H).
    destruct (strip text); [congruence|]. now rewrite H.
  - intros H1 H2. pose proof (has_chinese_not_blank text H2).
    destruct (strip text); [congruence|]. now rewrite H1, H2.
  - intros H1 H2 H3. pose proof (has_korean_not_blank text H3).
    destruct (strip text); [congruence|]. now rewrite H1, H2, H3.
  - intros H1 H2 H3 H4. pose proof (has_japanese_not_blank text H4).
    destruct (strip text); [congruence|]. now rewrite H1, H2, H3, H4.
Qed.

(** A text with a kanji and a hiragana ("日本の") is reported as "zh": the
    ideograph test comes before the kana test. *)
Lemma detect_language_script_priority_witness :
  detect_language (fun _ => Val (lit "ja")) [0x65E5; 0x672C; 0x306E]%N
  = Val (lit "zh").
Proof.
  exact (proj1 (proj2 (detect_language_script_priority
                         (fun _ => Val (lit "ja")) [0x65E5; 0x672C; 0x306E]%N))
           eq_refl eq_refl).
Defined.

(** X2: a text that reaches the Devanagari branch is always reported as
    "hi" or "mr", also when the statistical detector names another language
    or raises. *)
Theorem detect_language_devanagari_closed detect (text : pystr) :
  no_earlier_script text -> has_devanagari text = true ->
  detect_language detect text = Val (lit "hi")
  \/ detect_language detect text = Val (lit "mr").
Proof.
  intros Hs Hd. rewrite (detect_language_devanagari_branch detect text Hs Hd).
  destruct (_ && _); [now right|].
  destruct (0 <? hindi_count text)%nat; [now left|].
  unfold devanagari_fallback. destruct (detect text) as [d|e]; [|now left].
  destruct (mem d [lit "hi"; lit "mr"]) eqn:Hm; [|now left].
  apply mem_In in Hm. destruct Hm as [<-|[<-|[]]]; auto.
Qed.

Lemma detect_language_devanagari_closed_witness :
  detect_language (fun _ => Val (lit "ne")) [0x092E; 0x0930; 0x093E; 0x0920; 0x0940]%N
  = Val (lit "hi")
  \/ detect_language (fun _ => Val (lit "ne")) [0x092E; 0x0930; 0x093E; 0x0920; 0x0940]%N
     = Val (lit "mr").
Proof.
  apply detect_language_devanagari_closed; [repeat split | reflexivity].
Defined.

(** ** Language detection: markers inside markers *)

Lemma startswith_contains (s p : pystr) :
  startswith s p = true -> contains s p = true.
Proof. intros H. destruct s; simpl in *; now rewrite H. Qed.

Lemma contains_nil (s : pystr) : contains s [] = true.
Proof. now destruct s. Qed.

(** A string that contains [c :: p] contains [p]. *)
Lemma contains_tail (s : pystr) (c : N) (p : pystr) :
  contains s (c :: p) = true -> contains s p = true.
Proof.
  induction s as [|x s IH]; simpl; [discriminate|].
  intros H. apply orb_true_iff in H as [H|H].
  - apply andb_true_iff in H as [_ H].
    rewrite (startswith_contains s p H). apply orb_true_r.
  - rewrite (IH H). apply orb_true_r.
Qed.

Lemma startswith_prefix (s p q : pystr) :
  startswith s (p ++ q) = true -> startswith s p = true.
Proof.
  revert s. induction p as [|a p IH]; intros s; [now destruct s|].
  destruct s as [|b s]; simpl; [discriminate|].
  intros H. apply andb_true_iff in H as [H1 H2].
  now rewrite H1, (IH s H2).
Qed.

(** A string that contains [p ++ q] contains [p]. *)
Lemma contains_prefix (s p q : pystr) :
  contains s (p ++ q) = true -> contains s p = true.
Proof.
  induction s as [|x s IH]; intros H; cbn [contains] in H |- *.
  - apply orb_true_iff in H as [H|H]; [|discriminate].
    now rewrite (startswith_prefix [] p q H).
  - apply orb_true_iff in H as [H|H].
    + now rewrite (startswith_prefix (x :: s) p q H).
    + rewrite (IH H). apply orb_true_r.
Qed.

Lemma marker_count_pos (markers : list pystr) (text marker : pystr) :
  In marker markers -> contains text marker = true ->
  (0 < marker_count markers text)%nat.
Proof.
  intros Hin Hc. unfold marker_count.
  assert (H : In marker (filter (fun m => contains text m) markers)).
  { apply filter_In. auto. }
  destruct (filter _ markers); [contradiction | simpl; lia].
Qed.

(** X3: the Marathi markers "आहे", "आहेत" and "च्या" contain the Hindi
    markers "हे" and "या", so a text that contains one of them has a
    positive Hindi count.  "आहेत" also contains "आहे": a text with it has a
    Marathi count of at least 2.  When "आहे" or "च्या" is the only Marathi
    marker of a text that reaches the Devanagari branch (Marathi count 1),
    the text is reported as "hi". *)
Theorem detect_language_marathi_marker_counts_hindi detect (text : pystr) :
  (forall marker,
      In marker [ [0x0906; 0x0939; 0x0947]; [0x0906; 0x0939; 0x0947; 0x0924];
                  [0x091A; 0x094D; 0x092F; 0x093E] ]%N ->
      contains text marker = true ->
      In marker marathi_markers /\ (0 < hindi_count text)%nat)
  /\ (contains text [0x0906; 0x0939; 0x0947; 0x0924]%N = true ->
      (2 <= marathi_count text)%nat)
  /\ (forall marker,
        In marker [ [0x0906; 0x0939; 0x0947];
                    [0x091A; 0x094D; 0x092F; 0x093E] ]%N ->
        contains text marker = true ->
        marathi_count text = 1%nat ->
        no_earlier_script text -> has_devanagari text = true ->
        detect_language detect text = Val (lit "hi")).
Proof.
  assert (Hpos : forall marker,
             In marker [ [0x0906; 0x0939; 0x0947]; [0x0906; 0x0939; 0x0947; 0x0924];
                         [0x091A; 0x094D; 0x092F; 0x093E] ]%N ->
             contains text marker = true ->
             In marker marathi_markers /\ (0 < hindi_count text)%nat).
  { intros marker Hin Hc. split.
    - simpl in Hin. unfold marathi_markers.
      destruct Hin as [<-|[<-|[<-|[]]]]; simpl; tauto.
    - simpl in Hin. destruct Hin as [<-|[<-|[<-|[]]]].
      + apply (marker_count_pos hindi_markers text [0x0939; 0x0947]%N).
        * apply mem_In. reflexivity.
        * now apply contains_tail in Hc.
      + apply (marker_count_pos hindi_markers text [0x0939; 0x0947]%N).
        * apply mem_In. reflexivity.
        * apply (contains_prefix text [0x0906; 0x0939; 0x0947]%N [0x0924]%N) in Hc.
          now apply contains_tail in Hc.
      + apply (marker_count_pos hindi_markers text [0x092F; 0x093E]%N).
        * apply mem_In. reflexivity.
        * now apply contains_tail, contains_tail in Hc. }
  split; [exact Hpos|]. split.
  - intros Hc.
    pose proof (contains_prefix text [0x0906; 0x0939; 0x0947]%N [0x0924]%N Hc) as Hc'.
    cbn [app] in Hc'.
    unfold marathi_count, marker_count, marathi_markers. cbn [filter].
    rewrite Hc, Hc'. cbn [List.length]. lia.
  - intros marker Hin Hc H1 Hs Hd.
    assert (Hh : (0 < hindi_count text)%nat).
    { apply (Hpos marker); [|exact Hc].
      simpl in Hin |- *. destruct Hin as [<-|[<-|[]]]; tauto. }
    rewrite (detect_language_devanagari_branch detect text Hs Hd), H1.
    destruct (Nat.ltb_spec (hindi_count text) 1); [lia|]. simpl.
    destruct (Nat.ltb_spec 0 (hindi_count text)); [reflexivity | lia].
Qed.

(** "हे पुस्तक आहे" ("this is a book" in Marathi) and "च्या" alone are
    reported as "hi". *)
Lemma detect_language_marathi_marker_counts_hindi_witness :
  detect_language (fun _ => Val (lit "mr"))
    [0x0939; 0x0947; 0x20; 0x092A; 0x0941; 0x0938; 0x094D; 0x0924; 0x0915;
     0x20; 0x0906; 0x0939; 0x0947]%N
  = Val (lit "hi")
  /\ detect_language (fun _ => Val (lit "mr"))
       [0x091A; 0x094D; 0x092F; 0x093E]%N
     = Val (lit "hi")
  /\ (2 <= marathi_count [0x0906; 0x0939; 0x0947; 0x0924]%N)%nat.
Proof.
  split; [|split].
  - refine (proj2 (proj2
              (detect_language_marathi_marker_counts_hindi
                 (fun _ => Val (lit "mr"))
                 [0x0939; 0x0947; 0x20; 0x092A; 0x0941; 0x0938; 0x094D; 0x0924;
                  0x0915; 0x20; 0x0906; 0x0939; 0x0947]%N))
            [0x0906; 0x0939; 0x0947]%N _ eq_refl eq_refl _ eq_refl).
    + left. reflexivity.
    + repeat split.
  - refine (proj2 (proj2
              (detect_language_marathi_marker_counts_hindi
                 (fun _ => Val (lit "mr"))
                 [0x091A; 0x094D; 0x092F; 0x093E]%N))
            [0x091A; 0x094D; 0x092F; 0x093E]%N _ eq_refl eq_refl _ eq_refl).
    + right. left. reflexivity.
    + repeat split.
  - exact (proj1 (proj2
              (detect_language_marathi_marker_counts_hindi
                 (fun _ => Val (lit "mr"))
                 [0x0906; 0x0939; 0x0947; 0x0924]%N))
             eq_refl).
Defined.

(** X4: every code [detect_language] produces without consulting the
    statistical detector -- for a blank text or a text with a code point of
    one of the five tested scripts -- has a display name in
    [LANGUAGE_NAMES], so the uppercased code is never shown for it. *)
Theorem detect_language_named detect (text : pystr) :
  forallb isspace text = true \/ has_cyrillic text = true
  \/ has_chinese text = true \/ has_korean text = true
  \/ has_japanese text = true \/ has_devanagari text = true ->
  exists code name,
    detect_language detect text = Val code
    /\ In (code, name) LANGUAGE_NAMES
    /\ forall default, dict_get LANGUAGE_NAMES code default = name.
Proof.
  intros H.
  assert (Hcode : In (detect_language detect text)
                     (map Val [lit "en"; lit "ru"; lit "zh"; lit "ko";
                               lit "ja"; lit "hi"; lit "mr"])).
  { unfold detect_language, devanagari_fallback.
    destruct (strip text) as [|c0 l0] eqn:Es; [simpl; tauto|].
    destruct (has_cyrillic text) eqn:H1; [simpl; tauto|].
    destruct (has_chinese text) eqn:H2; [simpl; tauto|].
    destruct (has_korean text) eqn:H3; [simpl; tauto|].
    destruct (has_japanese text) eqn:H4; [simpl; tauto|].
    destruct (has_devanagari text) eqn:H5.
    - destruct (_ && _); [simpl; tauto|].
      destruct (0 <? hindi_count text)%nat; [simpl; tauto|].
      destruct (detect text) as [d|e]; [|simpl; tauto].
      destruct (mem d [lit "hi"; lit "mr"]) eqn:Hm; [|simpl; tauto].
      apply mem_In in Hm. destruct Hm as [<-|[<-|[]]]; simpl; tauto.
    - destruct H as [H|[H|[H|[H|[H|H]]]]]; try discriminate.
      rewrite (strip_blank text H) in Es. discriminate. }
  simpl in Hcode.
  destruct Hcode as [E|[E|[E|[E|[E|[E|[E|[]]]]]]]]; rewrite <- E;
    eexists; eexists; (split; [reflexivity|]);
    (split; [unfold LANGUAGE_NAMES; repeat (first [left; reflexivity | right])
            | intros default; reflexivity]).
Qed.

Lemma detect_language_named_witness :
  exists code name,
    detect_language (fun _ => Exc (OtherException []))
                    [0x041F; 0x0440; 0x0438; 0x0432; 0x0435; 0x0442]%N = Val code
    /\ In (code, name) LANGUAGE_NAMES
    /\ forall default, dict_get LANGUAGE_NAMES code default = name.
Proof.
  apply detect_language_named. right. left. reflexivity.
Defined.

(** ** The remote completion call: all the ways an attempt can end *)

Section AttemptFacts.

Variable net : nat -> payload -> post_outcome.

Lemma error_text_api (rest : pystr) : error_text (lit "API Error: " ++ rest).
Proof. left. now exists rest. Qed.

Lemma error_text_network (rest : pystr) : error_text (lit "Network Error: " ++ rest).
Proof. right. now exists rest. Qed.

(** One pass through the loop body posts [p] and then ends in one of five
    ways. *)
Lemma attempt_body_cases attempt (p : payload) (w : world) :
  let out := attempt_body net attempt p w in
  sent (snd out) = sent w ++ [p]
  /\ ((ACTIVE_MODEL (snd out) = ACTIVE_MODEL w
       /\ ((exists r text,
              net (List.length (sent w)) p = PostResponse r
              /\ status_code r = 200%Z /\ choice_content r = Val text
              /\ fst out = Val (Return (strip text)))
           \/ (exists text, error_text text /\ fst out = Val (Return text))
           \/ ((attempt <> 2)%nat /\ fst out = Val (Next p))
           \/ (exists str_e, fst out = Exc (OtherException str_e)
                             /\ ~ readable net)))
      \/ (ACTIVE_MODEL (snd out) = FALLBACK_MODELS_0
          /\ fst out = Val (Next (set_model p FALLBACK_MODELS_0)))).
Proof.
  cbv zeta.
  unfold attempt_body, try_body, bind, post, eval, ret, set_ACTIVE_MODEL, api_error.
  assert (Hbad : forall r, net (List.length (sent w)) p = PostResponse r ->
                 forall str_e,
                   (status_code r = 200%Z /\ choice_content r = Exc (OtherException str_e))
                   \/ (status_code r = 400%Z /\ error_message r = Exc (OtherException str_e)) ->
                   ~ readable net).
  { intros r Hnet str_e Hcase Hr. specialize (Hr (List.length (sent w)) p).
    rewrite Hnet in Hr. destruct Hr as [H2 H4].
    destruct Hcase as [[Hs Hc]|[Hs Hc]]; [now apply (H2 Hs str_e) | now apply (H4 Hs str_e)]. }
  destruct (Nat.eqb_spec attempt 2) as [Ha|Ha];
    (destruct (net (List.length (sent w)) p) as [[e|e]|r] eqn:Hnet;
     [ | | destruct (Z.eqb_spec (status_code r) 200) as [Hs|Hs];
           [ destruct (choice_content r) as [text|[e|e]] eqn:Hc
           | destruct (Z.eqb_spec (status_code r) 400) as [Hs4|Hs4];
             [ destruct (error_message r) as [msg|[e|e]] eqn:Hm;
               [ destruct (model_invalid msg) | | ] | ] ] ]);
    cbn [fst snd sent ACTIVE_MODEL]; (split; [reflexivity|]);
    try (right; split; reflexivity);
    left; (split; [reflexivity|]);
    try (left; exists r, text; repeat split; assumption);
    try (right; left; eexists; split; [|reflexivity];
         first [apply error_text_network | apply error_text_api]);
    try (right; right; left; split; [assumption | reflexivity]);
    right; right; right; exists e; (split; [reflexivity|]).
  all: try (intros Hr; specialize (Hr (List.length (sent w)) p);
            now rewrite Hnet in Hr).
  all: try (apply (Hbad r eq_refl e); auto).
Qed.

End AttemptFacts.

Section CallShape.

Variable net : nat -> payload -> post_outcome.

Lemma set_model_twice (p : payload) (m : pystr) :
  set_model (set_model p m) m = set_model p m.
Proof. reflexivity. Qed.

(** What a run of the retry loop posts, what it leaves in [ACTIVE_MODEL],
    and what it returns: a returned text that is no error text is the
    trimmed content of the 200 response to the last request posted. *)
Lemma retry_loop_cases (attempts : list nat) :
  forall (p : payload) (w : world),
    let out := retry_loop net attempts p w in
    (exists k j,
        sent (snd out)
          = sent w ++ repeat p k ++ repeat (set_model p FALLBACK_MODELS_0) j
        /\ (k + j <= List.length attempts)%nat
        /\ (attempts <> [] -> (1 <= k)%nat)
        /\ ((1 <= j)%nat -> ACTIVE_MODEL (snd out) = FALLBACK_MODELS_0))
    /\ (ACTIVE_MODEL (snd out) = ACTIVE_MODEL w
        \/ ACTIVE_MODEL (snd out) = FALLBACK_MODELS_0)
    /\ match fst out with
       | Val text =>
           (exists i q r body,
               (i < List.length attempts)%nat
               /\ nth_error (sent (snd out)) (List.length (sent w) + i) = Some q
               /\ List.length (sent (snd out)) = (List.length (sent w) + S i)%nat
               /\ net (List.length (sent w) + i)%nat q = PostResponse r
               /\ status_code r = 200%Z /\ choice_content r = Val body
               /\ text = strip body)
           \/ error_text text
       | Exc (RequestException _) => False
       | Exc (OtherException _) => ~ readable net
       end.
Proof.
  induction attempts as [|attempt rest IH]; intros p w; cbv zeta.
  - cbn [retry_loop ret fst snd].
    split; [|split].
    + exists 0%nat, 0%nat. cbn. rewrite app_nil_r.
      repeat split; intros; simpl; try lia; try congruence; auto.
    + now left.
    + right. left. exists (lit "Failed after retries"). reflexivity.
  - rewrite retry_loop_cons.
    pose proof (attempt_body_cases net attempt p w) as H.
  cbv zeta in H.
    destruct (attempt_body net attempt p w) as [[[text|p1]|e] w1];
      cbn [fst snd] in H |- *; destruct H as [Hsent Hcase].
    + (* return *)
      destruct Hcase as [[Hact Hres]|[_ Hres]]; [|discriminate].
      split; [|split].
      * exists 1%nat, 0%nat. cbn [repeat]. rewrite app_nil_r.
        repeat split; intros; simpl; try lia; try congruence; auto.
      * now left.
      * destruct Hres as [(r & body & Hnet & Hs & Hc & E)
                         |[(t & Ht & E)|[[_ E]|(x & E & _)]]];
          try discriminate; injection E as ->.
        -- left. exists 0%nat, p, r, body.
           split; [simpl; lia|]. split; [rewrite Hsent; apply nth_error_middle|].
           split; [rewrite Hsent, length_app; simpl; lia|].
           rewrite Nat.add_0_r. auto.
        -- now right.
    + (* next iteration *)
      specialize (IH p1 w1). cbv zeta in IH.
      destruct IH as [(k2 & j2 & Hs2 & Hlen & _ & Hj) [Hact2 Hres2]].
      assert (Hres : match fst (retry_loop net rest p1 w1) with
                     | Val text =>
                         (exists i q r body,
                             (i < List.length (attempt :: rest))%nat
                             /\ nth_error (sent (snd (retry_loop net rest p1 w1)))
                                          (List.length (sent w) + i) = Some q
                             /\ List.length (sent (snd (retry_loop net rest p1 w1)))
                                = (List.length (sent w) + S i)%nat
                             /\ net (List.length (sent w) + i)%nat q = PostResponse r
                             /\ status_code r = 200%Z /\ choice_content r = Val body
                             /\ text = strip body)
                         \/ error_text text
                     | Exc (RequestException _) => False
                     | Exc (OtherException _) => ~ readable net
                     end).
      { destruct (fst (retry_loop net rest p1 w1)) as [text|[x|x]]; auto.
        destruct Hres2 as [(i & q & r & body & Hi & Hnth & Hlast & Hnet & Hrest)|Herr];
          [|now right].
        left. exists (S i), q, r, body.
        rewrite Hsent, length_app in Hnth, Hlast, Hnet.
        cbn [List.length] in Hnth, Hlast, Hnet.
        replace (List.length (sent w) + S i)%nat
          with (List.length (sent w) + 1 + i)%nat by lia.
        split; [simpl; lia|]. split; [exact Hnth|]. split; [lia|].
        split; [exact Hnet | exact Hrest]. }
      destruct Hcase as [[Hact Hnext]|[Hact Hnext]].
      * destruct Hnext as [(r & body & _ & _ & _ & E)
                          |[(t & _ & E)|[[_ E]|(x & E & _)]]];
          try discriminate; injection E as ->.
        split; [|split; [|exact Hres]].
        -- exists (S k2), j2. rewrite Hs2, Hsent, <- app_assoc. cbn [repeat app].
           repeat split; intros; simpl; try lia; try congruence; auto.
        -- rewrite <- Hact. exact Hact2.
      * injection Hnext as ->.
        assert (Hfb : ACTIVE_MODEL (snd (retry_loop net rest
                          (set_model p FALLBACK_MODELS_0) w1)) = FALLBACK_MODELS_0).
        { destruct Hact2 as [E|E]; congruence. }
        split; [|split; [|exact Hres]].
        -- exists 1%nat, (k2 + j2)%nat. rewrite Hs2, Hsent, <- app_assoc.
           rewrite set_model_twice, <- repeat_app. cbn [repeat app].
           repeat split; intros; simpl; try lia; try congruence; auto.
        -- now right.
    + (* exception *)
      destruct Hcase as [[Hact Hres]|[_ Hres]]; [|discriminate].
      split; [|split].
      * exists 1%nat, 0%nat. cbn [repeat]. rewrite app_nil_r.
        repeat split; intros; simpl; try lia; try congruence; auto.
      * now left.
      * destruct Hres as [(r & body & _ & _ & _ & E)
                         |[(t & _ & E)|[[_ E]|(x & E & Hr)]]];
          try discriminate. injection E as ->. exact Hr.
Qed.

End CallShape.

(** ** The remote completion call: whole calls *)

Section CallExtras.

Variable net : nat -> payload -> post_outcome.

(** X5: a call posts at least one and at most three requests.  They differ
    at most in the model: first come requests with the model that was
    active when the call began, then -- after a decommission signal --
    requests with the first fallback, and never the earlier model again.
    When a request with the fallback was posted, [ACTIVE_MODEL] is the
    fallback at the end. *)
Theorem call_groq_api_requests (messages : list message) (max_tokens : Z)
        (w : world) :
  let out := call_groq_api net messages max_tokens w in
  let p := new_payload (ACTIVE_MODEL w) messages max_tokens in
  let p' := new_payload FALLBACK_MODELS_0 messages max_tokens in
  exists k j,
    sent (snd out) = sent w ++ repeat p k ++ repeat p' j
    /\ (1 <= k)%nat /\ (k + j <= 3)%nat
    /\ ((1 <= j)%nat -> ACTIVE_MODEL (snd out) = FALLBACK_MODELS_0).
Proof.
  cbv zeta. unfold call_groq_api.
  destruct (retry_loop_cases net (seq 0 3)
              (new_payload (ACTIVE_MODEL w) messages max_tokens) w)
    as [(k & j & Hs & Hlen & Hk & Hj) _].
  exists k, j. repeat split; auto.
  apply Hk. discriminate.
Qed.

(** How a call ends, read off [retry_loop_cases]. *)
Lemma call_groq_api_outcome (messages : list message) (max_tokens : Z)
      (w : world) :
  let out := call_groq_api net messages max_tokens w in
  match fst out with
  | Val text =>
      (exists i q r body,
          (i < 3)%nat
          /\ nth_error (sent (snd out)) (List.length (sent w) + i) = Some q
          /\ List.length (sent (snd out)) = (List.length (sent w) + S i)%nat
          /\ net (List.length (sent w) + i)%nat q = PostResponse r
          /\ status_code r = 200%Z /\ choice_content r = Val body
          /\ text = strip body)
      \/ error_text text
  | Exc (RequestException _) => False
  | Exc (OtherException _) => ~ readable net
  end.
Proof.
  unfold call_groq_api.
  destruct (retry_loop_cases net (seq 0 3)
              (new_payload (ACTIVE_MODEL w) messages max_tokens) w)
    as (_ & _ & H). exact H.
Qed.

(** X6: a call never lets a [RequestException] out, and the text it
    returns is either the trimmed content of the 200 response that the
    last of its (at most three) requests -- a request recorded in [sent] --
    was answered with, or a text that starts with "API Error: " or
    "Network Error: ". *)
Theorem call_groq_api_result (messages : list message) (max_tokens : Z)
        (w : world) :
  let out := call_groq_api net messages max_tokens w in
  match fst out with
  | Val text =>
      (exists i q r body,
          (i < 3)%nat
          /\ nth_error (sent (snd out)) (List.length (sent w) + i) = Some q
          /\ List.length (sent (snd out)) = (List.length (sent w) + S i)%nat
          /\ net (List.length (sent w) + i)%nat q = PostResponse r
          /\ status_code r = 200%Z /\ choice_content r = Val body
          /\ text = strip body)
      \/ error_text text
  | Exc (RequestException _) => False
  | Exc (OtherException _) => ~ readable net
  end.
Proof.
  unfold call_groq_api.
  exact (proj2 (proj2 (retry_loop_cases net (seq 0 3)
                         (new_payload (ACTIVE_MODEL w) messages max_tokens) w))).
Qed.

(** X7: against a service whose answers can be read, a call always returns
    a text. *)
Theorem call_groq_api_returns (messages : list message) (max_tokens : Z)
        (w : world) :
  readable net ->
  exists text, fst (call_groq_api net messages max_tokens w) = Val text.
Proof.
  intros Hr. pose proof (call_groq_api_outcome messages max_tokens w) as H.
  cbv zeta in H.
  destruct (fst (call_groq_api net messages max_tokens w)) as [text|[e|e]].
  - now exists text.
  - contradiction.
  - contradiction.
Qed.

Lemma retry_loop_transport attempt (rest : list nat) (p : payload) (w : world)
      (str_e : pystr) :
  attempt <> 2%nat ->
  net (List.length (sent w)) p = PostRaises (RequestException str_e) ->
  retry_loop net (attempt :: rest) p w = retry_loop net rest p (posted w p).
Proof.
  intros Ha H. rewrite retry_loop_cons, (attempt_body_transport net attempt p w str_e H).
  apply Nat.eqb_neq in Ha. now rewrite Ha.
Qed.

Lemma posted_times_S (w : world) (p : payload) (k : nat) :
  posted (posted_times w p k) p = posted_times w p (S k).
Proof.
  unfold posted, posted_times. cbn [ACTIVE_MODEL sent]. f_equal.
  rewrite <- app_assoc. f_equal.
  change [p] with (repeat p 1). rewrite <- repeat_app. f_equal. lia.
Qed.

Lemma posted_times_length (w : world) (p : payload) (k : nat) :
  List.length (sent (posted_times w p k)) = (List.length (sent w) + k)%nat.
Proof. cbn. now rewrite length_app, repeat_length. Qed.

(** After [k < 3] transport failures the call is at attempt [k], with
    the payload it began with. *)
Lemma call_groq_api_after_failures (messages : list message) (max_tokens : Z)
      (w : world) (k : nat) :
  let p := new_payload (ACTIVE_MODEL w) messages max_tokens in
  (k < 3)%nat ->
  (forall i, (i < k)%nat ->
     exists str_e, net (List.length (sent w) + i)%nat p
                   = PostRaises (RequestException str_e)) ->
  call_groq_api net messages max_tokens w =
    retry_loop net (seq k (3 - k)) p (posted_times w p k).
Proof.
  intros p Hk Hfail. unfold call_groq_api. fold p.
  assert (E0 : posted_times w p 0 = w).
  { unfold posted_times. cbn [repeat]. rewrite app_nil_r. now destruct w. }
  destruct k as [|[|[|k]]]; [| | |lia].
  - now rewrite E0.
  - destruct (Hfail 0%nat) as [e0 H0]; [lia|]. rewrite Nat.add_0_r in H0.
    cbn [seq Nat.sub].
    rewrite (retry_loop_transport 0 _ p w e0) by (auto; lia).
    rewrite <- E0 at 1. now rewrite posted_times_S.
  - destruct (Hfail 0%nat) as [e0 H0]; [lia|]. rewrite Nat.add_0_r in H0.
    destruct (Hfail 1%nat) as [e1 H1]; [lia|].
    cbn [seq Nat.sub].
    rewrite (retry_loop_transport 0 _ p w e0) by (auto; lia).
    rewrite <- E0 at 1. rewrite posted_times_S.
    rewrite (retry_loop_transport 1 _ p (posted_times w p 1) e1)
      by (try rewrite posted_times_length; auto; lia).
    now rewrite posted_times_S.
Qed.

(** X8: transport failures are retried with the same payload: when the
    first [k] attempts ([k] at most 2) fail with a [RequestException] and
    the next one is answered with status 200, the call returns the trimmed
    content after [k + 1] requests and leaves [ACTIVE_MODEL] alone. *)
Theorem call_groq_api_recovers (messages : list message) (max_tokens : Z)
        (w : world) (k : nat) (r : response) (body : pystr) :
  let p := new_payload (ACTIVE_MODEL w) messages max_tokens in
  (k < 3)%nat ->
  (forall i, (i < k)%nat ->
     exists str_e, net (List.length (sent w) + i)%nat p
                   = PostRaises (RequestException str_e)) ->
  net (List.length (sent w) + k)%nat p = PostResponse r ->
  status_code r = 200%Z -> choice_content r = Val body ->
  call_groq_api net messages max_tokens w =
    (Val (strip body),
     {| ACTIVE_MODEL := ACTIVE_MODEL w; sent := sent w ++ repeat p (S k) |}).
Proof.
  intros p Hk Hfail Hnet Hs Hc.
  rewrite (call_groq_api_after_failures messages max_tokens w k Hk Hfail). fold p.
  destruct (3 - k)%nat as [|m] eqn:E; [lia|]. cbn [seq].
  rewrite retry_loop_cons.
  rewrite (attempt_body_success net k p (posted_times w p k) r body)
    by (try rewrite posted_times_length; assumption).
  now rewrite posted_times_S.
Qed.

Lemma attempt_body_api_error attempt (p : payload) (w : world) (r : response) :
  net (List.length (sent w)) p = PostResponse r ->
  status_code r <> 200%Z ->
  (status_code r = 400%Z ->
   exists msg, error_message r = Val msg /\ model_invalid msg = false) ->
  attempt_body net attempt p w =
    (Val (Return (lit "API Error: " ++ str_of_Z (status_code r))), posted w p).
Proof.
  intros Hnet Hs H4.
  unfold attempt_body, try_body, bind, post, eval, ret, api_error.
  rewrite Hnet. apply Z.eqb_neq in Hs. rewrite Hs.
  destruct (Z.eqb_spec (status_code r) 400) as [E|E]; [|reflexivity].
  destruct (H4 E) as (msg & Hm & Hi). now rewrite Hm, Hi.
Qed.

(** X9: a response that is neither a success nor a decommission signal
    ends the call at once: with a status other than 200 -- and, for 400, an
    error message without "decommissioned" and "not found" -- the call
    returns "API Error: " followed by the status, and posts nothing
    more, also when attempts remain. *)
Theorem call_groq_api_error_not_retried (messages : list message)
        (max_tokens : Z) (w : world) (k : nat) (r : response) :
  let p := new_payload (ACTIVE_MODEL w) messages max_tokens in
  (k < 3)%nat ->
  (forall i, (i < k)%nat ->
     exists str_e, net (List.length (sent w) + i)%nat p
                   = PostRaises (RequestException str_e)) ->
  net (List.length (sent w) + k)%nat p = PostResponse r ->
  status_code r <> 200%Z ->
  (status_code r = 400%Z ->
   exists msg, error_message r = Val msg /\ model_invalid msg = false) ->
  call_groq_api net messages max_tokens w =
    (Val (lit "API Error: " ++ str_of_Z (status_code r)),
     {| ACTIVE_MODEL := ACTIVE_MODEL w; sent := sent w ++ repeat p (S k) |}).
Proof.
  intros p Hk Hfail Hnet Hs H4.
  rewrite (call_groq_api_after_failures messages max_tokens w k Hk Hfail). fold p.
  destruct (3 - k)%nat as [|m] eqn:E; [lia|]. cbn [seq].
  rewrite retry_loop_cons.
  rewrite (attempt_body_api_error k p (posted_times w p k) r)
    by (try rewrite posted_times_length; assumption).
  now rewrite posted_times_S.
Qed.

End CallExtras.

(** ** Translation: the values of the confidence *)

Lemma startswith_app (p b : pystr) : startswith (p ++ b) p = true.
Proof.
  induction p as [|c p IH]; simpl; [now destruct b|].
  now rewrite N.eqb_refl, IH.
Qed.

Lemma contains_app (a p b : pystr) : contains (a ++ p ++ b) p = true.
Proof.
  induction a as [|x a IH]; cbn [app].
  - apply startswith_contains, startswith_app.
  - cbn [contains]. rewrite IH. apply orb_true_r.
Qed.

Lemma startswith_map (f : N -> N) (s p : pystr) :
  startswith s p = true -> startswith (map f s) (map f p) = true.
Proof.
  revert s. induction p as [|a p IH]; intros s; [now destruct s|].
  destruct s as [|b s]; simpl; [discriminate|].
  intros H. apply andb_true_iff in H as [H1 H2].
  apply N.eqb_eq in H1. subst b. now rewrite N.eqb_refl, (IH s H2).
Qed.

Lemma contains_map (f : N -> N) (s p : pystr) :
  contains s p = true -> contains (map f s) (map f p) = true.
Proof.
  induction s as [|x s IH]; intros H; cbn [contains map] in H |- *.
  - apply orb_true_iff in H as [H|H]; [|discriminate].
    apply (startswith_map f) in H. cbn [map] in H. now rewrite H.
  - apply orb_true_iff in H as [H|H].
    + apply (startswith_map f) in H. cbn [map] in H. now rewrite H.
    + rewrite (IH H). apply orb_true_r.
Qed.

Lemma error_text_contains_Error (text : pystr) :
  error_text text -> contains text (lit "Error") = true.
Proof.
  intros [[rest ->]|[rest ->]].
  - change (lit "API Error: " ++ rest)
      with (lit "API " ++ lit "Error" ++ (lit ": " ++ rest)).
    apply contains_app.
  - change (lit "Network Error: " ++ rest)
      with (lit "Network " ++ lit "Error" ++ (lit ": " ++ rest)).
    apply contains_app.
Qed.

Section ConfidenceValues.

Variable net : nat -> payload -> post_outcome.
Variable lower upper : pystr -> pystr.

Lemma penalty_values (translation : pystr) :
  In (penalty lower translation (word_confidence translation))
     [65; 75; 80; 90; 95].
Proof.
  unfold penalty.
  destruct (word_confidence_cases translation) as [[_ E]|[[_ E]|[_ E]]];
    rewrite E; destruct (leaked_error lower translation); simpl; tauto.
Qed.

Lemma translate_to_english_run (text lang_code : pystr) (w : world) :
  lang_code <> lit "en" ->
  translate_to_english net lower upper text lang_code w =
    match call_groq_api net
            (translation_messages text
               (dict_get LANGUAGE_NAMES lang_code (upper lang_code))) 300 w with
    | (Val translation, w') =>
        (Val (translation, penalty lower translation (word_confidence translation)), w')
    | (Exc e, w') => (Exc e, w')
    end.
Proof.
  intros H. apply eqb_neq in H. unfold translate_to_english. rewrite H.
  unfold bind, ret. now destruct (call_groq_api net _ 300 w) as [[t|e] w'].
Qed.

(** X10: the confidence [translate_to_english] returns is 100 for the
    language code "en" and one of 65, 75, 80, 90, 95 for every other code:
    a translated text never gets 100, and no confidence is outside 0-100. *)
Theorem translate_to_english_confidence_values (text lang_code : pystr)
        (w : world) :
  match fst (translate_to_english net lower upper text lang_code w) with
  | Val (_, c) =>
      ((lang_code = lit "en" /\ c = 100)
       \/ (lang_code <> lit "en" /\ In c [65; 75; 80; 90; 95]))
      /\ 0 <= c /\ c <= 100
  | Exc _ => lang_code <> lit "en"
  end.
Proof.
  destruct (eqb_spec lang_code (lit "en")) as [->|Hn].
  - cbn. split; [now left|]. split; vm_compute; discriminate.
  - rewrite (translate_to_english_run text lang_code w Hn).
    destruct (call_groq_api net _ 300 w) as [[t|e] w']; cbn [fst]; [|assumption].
    pose proof (penalty_values t) as Hv.
    split; [right; now split|].
    simpl in Hv.
    destruct Hv as [<-|[<-|[<-|[<-|[<-|[]]]]]]; split; vm_compute; discriminate.
Qed.

(** X11: when [str.lower] turns "Error" into "error", a translation is
    either the trimmed content of the 200 response that the last request of
    the call -- a request recorded in [sent] -- was answered with, or an
    error text of the client, and then its confidence is 65, 75 or 80. *)
Theorem translate_to_english_error_confidence (text lang_code : pystr)
        (w w' : world) (translation : pystr) (c : Q) :
  (forall s, contains s (lit "Error") = true ->
             contains (lower s) (lit "error") = true) ->
  lang_code <> lit "en" ->
  translate_to_english net lower upper text lang_code w
    = (Val (translation, c), w') ->
  (exists i q r body,
      (i < 3)%nat
      /\ nth_error (sent w') (List.length (sent w) + i) = Some q
      /\ List.length (sent w') = (List.length (sent w) + S i)%nat
      /\ net (List.length (sent w) + i)%nat q = PostResponse r
      /\ status_code r = 200%Z /\ choice_content r = Val body
      /\ translation = strip body)
  \/ (error_text translation /\ In c [65; 75; 80]).
Proof.
  intros Hlower Hn Hrun.
  rewrite (translate_to_english_run text lang_code w Hn) in Hrun.
  pose proof (call_groq_api_outcome net
                (translation_messages text
                   (dict_get LANGUAGE_NAMES lang_code (upper lang_code))) 300 w) as Hres.
  cbv zeta in Hres.
  destruct (call_groq_api net _ 300 w) as [[t|e] w1]; [|discriminate].
  injection Hrun as -> <- <-. cbn [fst snd] in Hres.
  destruct Hres as [Hok|Herr]; [now left|right].
  split; [assumption|].
  assert (Hleak : leaked_error lower translation = true).
  { unfold leaked_error. cbn [existsb].
    now rewrite (Hlower translation (error_text_contains_Error translation Herr)). }
  unfold penalty. rewrite Hleak.
  destruct (word_confidence_cases translation) as [[_ E]|[[_ E]|[_ E]]];
    rewrite E; simpl; tauto.
Qed.

End ConfidenceValues.

Lemma ascii_lower_Error (s : pystr) :
  contains s (lit "Error") = true ->
  contains (ascii_lower s) (lit "error") = true.
Proof.
  intros H. unfold ascii_lower.
  apply (contains_map
           (fun c => if ((65 <=? c) && (c <=? 90))%N then (c + 32)%N else c)) in H.
  exact H.
Qed.

(** ** The query pipeline *)

Section PipelineFacts.

Variable detect : pystr -> result pystr.
Variable net : nat -> payload -> post_outcome.
Variable lower upper : pystr -> pystr.

(** The requests of one completion call, by number and token bound. *)
Lemma call_groq_api_posts (msgs : list message) (bound : Z) (w : world) :
  exists ps,
    sent (snd (call_groq_api net msgs bound w)) = sent w ++ ps
    /\ (1 <= List.length ps <= 3)%nat
    /\ Forall (fun p => max_tokens p = bound /\ messages p = msgs) ps.
Proof.
  destruct (retry_loop_cases net (seq 0 3)
              (new_payload (ACTIVE_MODEL w) msgs bound) w)
    as [(k & j & Hs & Hkj & Hk & _) _].
  cbv zeta in Hs. specialize (Hk ltac:(discriminate)). cbn [List.length seq] in Hkj.
  change (retry_loop net (seq 0 3) (new_payload (ACTIVE_MODEL w) msgs bound) w)
    with (call_groq_api net msgs bound w) in Hs.
  exists (repeat (new_payload (ACTIVE_MODEL w) msgs bound) k
          ++ repeat (new_payload FALLBACK_MODELS_0 msgs bound) j).
  split; [exact Hs|]. split.
  - rewrite length_app, !repeat_length. lia.
  - apply Forall_app. split; apply Forall_forall; intros p Hp;
      apply repeat_spec in Hp; subst p; split; reflexivity.
Qed.

Lemma translate_to_english_posts (text lang_code : pystr) (w : world) :
  exists ps,
    sent (snd (translate_to_english net lower upper text lang_code w)) = sent w ++ ps
    /\ (List.length ps <= 3)%nat
    /\ Forall (fun p => max_tokens p = 300%Z) ps
    /\ (lang_code = lit "en" -> ps = [])
    /\ (lang_code <> lit "en" -> (1 <= List.length ps)%nat).
Proof.
  destruct (eqb_spec lang_code (lit "en")) as [->|Hn].
  - exists []. cbn. rewrite app_nil_r. repeat split; auto. congruence.
  - rewrite (translate_to_english_run net lower upper text lang_code w Hn).
    destruct (call_groq_api_posts
                (translation_messages text
                   (dict_get LANGUAGE_NAMES lang_code (upper lang_code))) 300 w)
      as (ps & Hs & Hlen & Hall).
    exists ps.
    destruct (call_groq_api net _ 300 w) as [[t|e] w1]; cbn [snd] in *;
      (repeat split; [assumption | lia | | congruence | lia]);
      (eapply Forall_impl; [|exact Hall]); intros p [H _]; exact H.
Qed.

Lemma detect_language_returns (text : pystr) :
  exists code, detect_language detect text = Val code.
Proof.
  unfold detect_language, devanagari_fallback.
  destruct (strip text); [eauto|].
  repeat match goal with
         | |- context [if ?b then _ else _] => destruct b
         end;
    try destruct (detect text) as [d|e]; eauto.
Qed.

(** X12: a query that is processed to the end is logged once: the
    collector gains exactly one record, which carries the display name of
    the detected language, the first 100 code points of the input and of
    the translation, and the confidence and response time that the
    returned result carries; the result holds the input unchanged. *)
Theorem process_query_logs (start stop : Z) (stamp user_input : pystr)
        (w w' : world) (metrics metrics' : TranslationMetrics.t)
        (res : QueryResult.t) :
  process_query detect net lower upper start stop stamp user_input w metrics
    = (Val res, w', metrics') ->
  exists lang_code,
    detect_language detect user_input = Val lang_code
    /\ QueryResult.original res = user_input
    /\ QueryResult.language res
       = dict_get LANGUAGE_NAMES lang_code (upper lang_code)
    /\ QueryResult.time res = total_seconds (stop - start)
    /\ TranslationMetrics.start_time metrics'
       = TranslationMetrics.start_time metrics
    /\ TranslationMetrics.queries metrics'
       = TranslationMetrics.queries metrics
         ++ [ {| TranslationMetrics.timestamp := stamp;
                 TranslationMetrics.language := QueryResult.language res;
                 TranslationMetrics.original := firstn 100 user_input;
                 TranslationMetrics.translation :=
                   firstn 100 (QueryResult.english res);
                 TranslationMetrics.confidence := QueryResult.confidence res;
                 TranslationMetrics.response_time := QueryResult.time res |} ].
Proof.
  unfold process_query. intros H.
  destruct (detect_language detect user_input) as [lang_code|e]; [|discriminate].
  destruct (translate_to_english net lower upper user_input lang_code w)
    as [[[english c]|e] w1]; [|discriminate].
  destruct (generate_support_response net english w1) as [[reply|e] w2];
    [|discriminate].
  injection H as <- <- <-. exists lang_code. repeat split.
Qed.

(** X13: [process_query] raises only when the service gave an answer the
    client cannot read -- against a readable service it always returns a
    result -- and a query that raises is not logged; the exception is
    never a [RequestException]. *)
Theorem process_query_failure (start stop : Z) (stamp user_input : pystr)
        (w : world) (metrics : TranslationMetrics.t) :
  let out := process_query detect net lower upper start stop stamp
                           user_input w metrics in
  (readable net -> exists res, fst (fst out) = Val res)
  /\ (forall e, fst (fst out) = Exc e ->
        snd out = metrics
        /\ ~ readable net
        /\ exists str_e, e = OtherException str_e).
Proof.
  cbv zeta. unfold process_query.
  destruct (detect_language_returns user_input) as [lang_code ->].
  assert (Htr : match fst (translate_to_english net lower upper user_input lang_code w) with
                | Val _ => True
                | Exc (RequestException _) => False
                | Exc (OtherException _) => ~ readable net
                end).
  { destruct (eqb_spec lang_code (lit "en")) as [->|Hn]; [exact I|].
    rewrite (translate_to_english_run net lower upper user_input lang_code w Hn).
    pose proof (call_groq_api_outcome net
                  (translation_messages user_input
                     (dict_get LANGUAGE_NAMES lang_code (upper lang_code))) 300 w) as Hc.
    cbv zeta in Hc.
    destruct (call_groq_api net _ 300 w) as [[t|[e|e]] w1]; cbn [fst] in *; auto. }
  destruct (translate_to_english net lower upper user_input lang_code w)
    as [[[english c]|e] w1]; cbn [fst] in Htr.
  - pose proof (call_groq_api_outcome net
                  [ {| role := lit "system";
                       content := lit "You are a helpful, empathetic customer support agent. Be clear, concise, and provide actionable steps." |};
                    {| role := lit "user";
                       content := lit "Customer says: " ++ english ++ [10; 10]%N
                                  ++ lit "Respond professionally in 2-4 sentences with clear next steps." |} ]
                  400 w1) as Hg.
    cbv zeta in Hg.
    unfold generate_support_response.
    destruct (call_groq_api net _ 400 w1) as [[reply|[e|e]] w2]; cbn [fst snd] in *.
    + split; [eauto | discriminate].
    + contradiction.
    + split; [contradiction|]. intros e' E. injection E as <-. eauto.
  - destruct e as [e|e]; [contradiction|]. cbn [fst snd].
    split; [contradiction|]. intros e' E. injection E as <-. eauto.
Qed.

(** X14: one query costs between one and six requests: at most three for
    the translation, all with token bound 300 and none at all when the
    detected language is "en", followed by at most three for the reply, all
    with token bound 400. *)
Theorem process_query_requests (start stop : Z) (stamp user_input : pystr)
        (w : world) (metrics : TranslationMetrics.t) :
  let out := process_query detect net lower upper start stop stamp
                           user_input w metrics in
  exists for_translation for_reply,
    sent (snd (fst out)) = sent w ++ for_translation ++ for_reply
    /\ (List.length for_translation <= 3)%nat
    /\ (List.length for_reply <= 3)%nat
    /\ (1 <= List.length (for_translation ++ for_reply))%nat
    /\ Forall (fun p => max_tokens p = 300%Z) for_translation
    /\ Forall (fun p => max_tokens p = 400%Z) for_reply
    /\ (detect_language detect user_input = Val (lit "en") ->
        for_translation = []).
Proof.
  cbv zeta. unfold process_query.
  destruct (detect_language_returns user_input) as [lang_code ->].
  destruct (translate_to_english_posts user_input lang_code w)
    as (ps & Hs & Hlen & Hall & Hen & Hne).
  destruct (translate_to_english net lower upper user_input lang_code w)
    as [[[english c]|e] w1] eqn:Et; cbn [snd fst] in *.
  - unfold generate_support_response.
    match goal with
    | |- context [call_groq_api net ?m 400 w1] =>
        destruct (call_groq_api_posts m 400 w1) as (qs & Hq & Hqlen & Hqall);
        destruct (call_groq_api net m 400 w1) as [[reply|e] w2]
    end; cbn [snd fst] in *;
      exists ps, qs; rewrite Hq, Hs, <- app_assoc;
      (repeat split; try assumption; try lia;
       [ rewrite length_app; lia
       | eapply Forall_impl; [|exact Hqall]; intros p [H _]; exact H
       | intros E; injection E as ->; now apply Hen ]).
  - exists ps, []. rewrite Hs, app_nil_r.
    assert (Hn : lang_code <> lit "en").
    { intros ->. unfold translate_to_english in Et.
      rewrite eqb_refl in Et. discriminate. }
    repeat split; try assumption; simpl; try lia.
    + specialize (Hne Hn). lia.
    + constructor.
    + intros E. injection E as ->. now apply Hen.
Qed.

End PipelineFacts.

(** ** Wrapping the support response *)

Section WrapFacts.

Local Open Scope nat_scope.

Lemma split_from_clean (s : pystr) :
  forall cur, forallb (fun c => negb (isspace c)) cur = true ->
              Forall clean_word (split_from cur s).
Proof.
  assert (Hrev : forall cur, cur <> [] ->
                 forallb (fun c => negb (isspace c)) cur = true ->
                 clean_word (rev cur)).
  { intros cur Hne Hc. split.
    - intros E. apply (f_equal (@rev N)) in E. rewrite rev_involutive in E.
      now apply Hne.
    - now rewrite forallb_rev. }
  induction s as [|c s IH]; intros cur Hcur; cbn [split_from].
  - destruct cur as [|x cur]; [constructor|].
    constructor; [apply Hrev; [discriminate | assumption] | constructor].
  - destruct (isspace c) eqn:Hc.
    + destruct cur as [|x cur]; [now apply IH|].
      constructor; [apply Hrev; [discriminate | assumption] | now apply IH].
    + apply IH. cbn [forallb]. now rewrite Hc, Hcur.
Qed.

Lemma split_clean (s : pystr) : Forall clean_word (split s).
Proof. now apply split_from_clean. Qed.

Lemma split_from_word (word rest cur : pystr) :
  forallb (fun c => negb (isspace c)) word = true ->
  split_from cur (word ++ rest) = split_from (rev word ++ cur) rest.
Proof.
  revert cur. induction word as [|c word IH]; intros cur H; [reflexivity|].
  cbn [forallb] in H. apply andb_true_iff in H as [Hc Hw].
  apply negb_true_iff in Hc. cbn [app split_from]. rewrite Hc, (IH (c :: cur) Hw).
  cbn [rev]. now rewrite <- app_assoc.
Qed.

Lemma split_spaced (ws : list pystr) :
  Forall clean_word ws -> split (spaced ws) = ws.
Proof.
  unfold split, spaced.
  induction 1 as [|word ws [Hne Hc] _ IH]; [reflexivity|].
  cbn [map concat]. rewrite <- app_assoc.
  rewrite (split_from_word word _ [] Hc), app_nil_r. cbn [app split_from isspace].
  change (isspace 32) with true. cbn iota.
  destruct (rev word) as [|x r] eqn:E.
  - apply (f_equal (@rev N)) in E. rewrite rev_involutive in E. now destruct Hne.
  - rewrite <- E, rev_involutive. now rewrite IH.
Qed.

Lemma split_lstrip (s : pystr) : split (lstrip s) = split s.
Proof.
  unfold split. induction s as [|c s IH]; [reflexivity|].
  cbn [lstrip split_from]. destruct (isspace c) eqn:Hc; [exact IH|].
  cbn [split_from]. now rewrite Hc.
Qed.

Lemma split_from_blank_end (x ws : pystr) :
  forallb isspace ws = true ->
  forall cur, split_from cur (x ++ ws) = split_from cur x.
Proof.
  intros Hws. induction x as [|c x IH]; intros cur; cbn [app].
  - revert cur. induction ws as [|c ws IHw]; intros cur; [reflexivity|].
    cbn [forallb] in Hws. apply andb_true_iff in Hws as [Hc Hws].
    cbn [split_from]. rewrite Hc.
    destruct cur as [|y cur]; rewrite (IHw Hws); reflexivity.
  - cbn [split_from]. destruct (isspace c); [destruct cur|]; now rewrite IH.
Qed.

Lemma rstrip_decompose (s : pystr) :
  exists ws, s = rstrip s ++ ws /\ forallb isspace ws = true.
Proof.
  destruct (lstrip_decompose (rev s)) as (ws & E & Hws & _).
  exists (rev ws). split; [|now rewrite forallb_rev].
  unfold rstrip. rewrite <- rev_app_distr, <- E. now rewrite rev_involutive.
Qed.

Lemma split_rstrip (s : pystr) : split (rstrip s) = split s.
Proof.
  destruct (rstrip_decompose s) as (ws & E & Hws).
  unfold split. rewrite E at 2. now rewrite split_from_blank_end.
Qed.

(** [split] does not see the whitespace [strip] removes. *)
Lemma split_strip (s : pystr) : split (strip s) = split s.
Proof. unfold strip. now rewrite split_rstrip, split_lstrip. Qed.

Lemma strip_length (s : pystr) : List.length (strip s) <= List.length s.
Proof.
  destruct (strip_decompose s) as (b & a & E & _).
  rewrite E at 2. rewrite !length_app. lia.
Qed.

Lemma lstrip_snoc_space (x : pystr) (sp : N) :
  isspace sp = true ->
  lstrip (x ++ [sp]) = match lstrip x with [] => [] | _ :: _ => lstrip x ++ [sp] end.
Proof.
  intros Hsp. induction x as [|c x IH]; cbn [app lstrip].
  - now rewrite Hsp.
  - destruct (isspace c); [exact IH | reflexivity].
Qed.

Lemma rstrip_snoc_space (y : pystr) (sp : N) :
  isspace sp = true -> rstrip (y ++ [sp]) = rstrip y.
Proof.
  intros Hsp. unfold rstrip. rewrite rev_app_distr. cbn [rev app lstrip].
  now rewrite Hsp.
Qed.

Lemma strip_snoc_space (x : pystr) (sp : N) :
  isspace sp = true -> strip (x ++ [sp]) = strip x.
Proof.
  intros Hsp. unfold strip. rewrite (lstrip_snoc_space x sp Hsp).
  destruct (lstrip x) as [|c l]; [reflexivity|].
  now apply rstrip_snoc_space.
Qed.

Lemma lstrip_clean (word : pystr) :
  forallb (fun c => negb (isspace c)) word = true -> lstrip word = word.
Proof.
  destruct word as [|c word]; [reflexivity|]. cbn [forallb lstrip].
  intros H. apply andb_true_iff in H as [Hc _]. apply negb_true_iff in Hc.
  now rewrite Hc.
Qed.

Lemma strip_clean (word : pystr) : clean_word word -> strip word = word.
Proof.
  intros [_ Hc]. unfold strip, rstrip. rewrite (lstrip_clean word Hc).
  rewrite lstrip_clean by now rewrite forallb_rev.
  apply rev_involutive.
Qed.

Lemma spaced_snoc (ws : list pystr) (word : pystr) :
  spaced (ws ++ [word]) = spaced ws ++ word ++ [32%N].
Proof.
  unfold spaced. rewrite map_app, concat_app. cbn [map concat].
  now rewrite app_nil_r.
Qed.

Lemma strip_spaced_nil (ws : list pystr) :
  Forall clean_word ws -> strip (spaced ws) = [] -> ws = [].
Proof.
  intros Hws E. rewrite <- (split_spaced ws Hws), <- split_strip, E. reflexivity.
Qed.

Lemma wrap_loop_words (words : list pystr) :
  Forall clean_word words ->
  forall ws, Forall clean_word ws ->
             concat (map split (wrap_loop words (spaced ws))) = ws ++ words.
Proof.
  induction 1 as [|word rest Hword Hrest IH]; intros ws Hws; cbn [wrap_loop].
  - destruct (strip (spaced ws)) as [|c l] eqn:E.
    + now rewrite (strip_spaced_nil ws Hws E).
    + cbn [map concat]. rewrite <- E, split_strip, (split_spaced ws Hws).
      now rewrite app_nil_r.
  - destruct (List.length (spaced ws ++ word) <=? 64).
    + rewrite <- spaced_snoc, IH by (apply Forall_app; auto).
      now rewrite <- app_assoc.
    + cbn [map concat]. rewrite split_strip, (split_spaced ws Hws).
      change (word ++ [32%N]) with (word ++ [32%N] ++ []).
      rewrite app_assoc. change ((word ++ [32%N]) ++ []) with (spaced [word]).
      rewrite IH by auto. reflexivity.
Qed.

(** X15: wrapping loses nothing: the words of the printed lines, read line
    after line, are the words of the response, in the same order. *)
Theorem wrap_response_words (support_response : pystr) :
  concat (map split (wrap_response support_response)) = split support_response.
Proof.
  unfold wrap_response. change (@nil N) with (spaced []).
  now rewrite (wrap_loop_words _ (split_clean support_response) []).
Qed.

End WrapFacts.

Section WrapWidth.

Local Open Scope nat_scope.

Lemma box_row_length (s : pystr) :
  List.length s <= 66 -> List.length (box_row s) = 70.
Proof.
  intros H. unfold box_row, ljust.
  rewrite !length_app, repeat_length. cbn [List.length]. lia.
Qed.

Lemma wrap_loop_width (all words : list pystr) :
  Forall clean_word words -> incl words all ->
  forall line,
    line = [] \/ (exists x, line = x ++ [32%N]
                            /\ (List.length (strip x) <= 64 \/ In (strip x) all)) ->
    Forall (fun l => List.length l <= 64 \/ In l all) (wrap_loop words line).
Proof.
  assert (Hprinted : forall line,
            line = [] \/ (exists x, line = x ++ [32%N]
                            /\ (List.length (strip x) <= 64 \/ In (strip x) all)) ->
            List.length (strip line) <= 64 \/ In (strip line) all).
  { intros line [->|(x & -> & Hx)]; [left; cbn; lia|].
    now rewrite strip_snoc_space. }
  induction 1 as [|word rest Hword Hrest IH]; intros Hincl line Hline;
    cbn [wrap_loop].
  - destruct (strip line) as [|c l] eqn:E; constructor; [|constructor].
    rewrite <- E. now apply Hprinted.
  - assert (Hrest' : incl rest all) by (intros y Hy; apply Hincl; now right).
    destruct (Nat.leb_spec (List.length (line ++ word)) 64) as [Hfit|Hlong].
    + apply IH; [assumption|]. right. exists (line ++ word).
      split; [now rewrite <- app_assoc|]. left.
      pose proof (strip_length (line ++ word)). lia.
    + constructor; [now apply Hprinted|].
      apply IH; [assumption|]. right. exists word. split; [reflexivity|].
      right. rewrite (strip_clean word Hword). apply Hincl. now left.
Qed.

(** X16: a printed line is at most 64 code points long, unless it is a
    single word of the response that is longer than that; so when no word
    of the response is longer than 66 code points, every row of the box is
    exactly 70 code points wide. *)
Theorem wrap_response_width (support_response : pystr) :
  Forall (fun l => List.length l <= 64 \/ In l (split support_response))
         (wrap_response support_response)
  /\ ((forall word, In word (split support_response) -> List.length word <= 66) ->
      Forall (fun row => List.length row = 70)
             (support_response_rows support_response)).
Proof.
  assert (H : Forall (fun l => List.length l <= 64 \/ In l (split support_response))
                     (wrap_response support_response)).
  { unfold wrap_response.
    apply wrap_loop_width; [apply split_clean | apply incl_refl | now left]. }
  split; [exact H|]. intros Hwords. unfold support_response_rows.
  apply Forall_map. eapply Forall_impl; [|exact H].
  intros l [Hl|Hl]; apply box_row_length; [lia | now apply Hwords].
Qed.

Lemma wrap_loop_no_empty_line (words : list pystr) :
  Forall clean_word words ->
  forall ws, Forall clean_word ws -> ws <> [] ->
             ~ In [] (wrap_loop words (spaced ws)).
Proof.
  induction 1 as [|word rest Hword Hrest IH]; intros ws Hws Hne; cbn [wrap_loop].
  - destruct (strip (spaced ws)) as [|c l] eqn:E.
    + now destruct (Hne (strip_spaced_nil ws Hws E)).
    + intros [H|[]]. discriminate.
  - destruct (List.length (spaced ws ++ word) <=? 64).
    + rewrite <- spaced_snoc. apply IH; [apply Forall_app; auto|].
      now destruct ws.
    + intros [E|Hin].
      * now destruct (Hne (strip_spaced_nil ws Hws E)).
      * change (word ++ [32%N]) with (word ++ [32%N] ++ []) in Hin.
        rewrite app_assoc in Hin.
        change ((word ++ [32%N]) ++ []) with (spaced [word]) in Hin.
        revert Hin. apply IH; [auto | discriminate].
Qed.

(** X17: the box has an empty line exactly when the first word of the
    response is longer than 64 code points: the loop then prints the line
    it holds before it has put a word into it. *)
Theorem wrap_response_empty_line (support_response : pystr) :
  In [] (wrap_response support_response) <->
  exists word rest,
    split support_response = word :: rest /\ 64 < List.length word.
Proof.
  unfold wrap_response. pose proof (split_clean support_response) as Hc.
  destruct (split support_response) as [|word rest]; cbn [wrap_loop].
  - split; [intros [] | intros (x & r & E & _); discriminate].
  - inversion Hc as [|? ? Hword Hrest]; subst. cbn [app].
    destruct (Nat.leb_spec (List.length word) 64) as [Hfit|Hlong].
    + split.
      * intros Hin. exfalso.
        change (word ++ [32%N]) with (word ++ [32%N] ++ []) in Hin.
        rewrite app_assoc in Hin.
        change ((word ++ [32%N]) ++ []) with (spaced [word]) in Hin.
        revert Hin. apply wrap_loop_no_empty_line; [auto | auto | discriminate].
      * intros (x & r & E & Hx). injection E as <- <-. lia.
    + split; [|intros _; now left].
      intros _. exists word, rest. auto.
Qed.

End WrapWidth.

(** ** Metrics: logging and the summary *)

Section MetricsExtras.

Import TranslationMetrics.

(** X18: [log_query] appends one record and changes nothing else.  The
    record keeps language, confidence and response time as given, and of
    each of the two texts the first 100 code points -- the whole text when
    it has no more.  After it the summary is never the "empty" notice and
    counts one query more. *)
Theorem log_query_appends (py : runtime) (self : t)
        (stamp lang text english : pystr) (c time : Q) (now : Z) :
  let self' := log_query self stamp lang text english c time in
  exists record,
    queries self' = queries self ++ [record]
    /\ start_time self' = start_time self
    /\ language record = lang /\ confidence record = c
    /\ response_time record = time
    /\ (exists rest, text = original record ++ rest)
    /\ List.length (original record) = Nat.min 100 (List.length text)
    /\ (exists rest, english = translation record ++ rest)
    /\ List.length (translation record) = Nat.min 100 (List.length english)
    /\ ((List.length text <= 100)%nat -> original record = text)
    /\ ((List.length english <= 100)%nat -> translation record = english)
    /\ option_map total_queries (fst (show_summary py self' now))
       = Some (S (List.length (queries self))).
Proof.
  cbv zeta. eexists. split; [reflexivity|]. cbn [start_time log_query language
    confidence response_time original translation].
  repeat split.
  - exists (skipn 100 text). now rewrite firstn_skipn.
  - apply length_firstn.
  - exists (skipn 100 english). now rewrite firstn_skipn.
  - apply length_firstn.
  - intros H. now apply firstn_all2.
  - intros H. now apply firstn_all2.
  - unfold show_summary. cbn [queries log_query].
    destruct (queries self ++ _) as [|q l] eqn:E.
    + destruct (queries self); discriminate.
    + cbn [fst option_map total_queries]. rewrite <- E, length_app. cbn.
      f_equal. lia.
Qed.

Lemma dict_set_increment_sum (d : list (pystr * nat)) (k : pystr) :
  list_sum (map snd (dict_set d k (dict_get d k 0 + 1)%nat))
  = S (list_sum (map snd d)).
Proof.
  unfold list_sum in *.
  induction d as [|[k' v'] d IH]; cbn [dict_set dict_get]; [reflexivity|].
  destruct (eqb k' k); cbn [map snd fold_right]; [lia|].
  rewrite IH. lia.
Qed.

Lemma count_languages_sum (qs : list query) :
  list_sum (map snd (count_languages qs)) = List.length qs.
Proof.
  induction qs as [|q qs IH] using rev_ind; [reflexivity|].
  rewrite count_languages_snoc, dict_set_increment_sum, IH, length_app.
  cbn. lia.
Qed.

Lemma list_sum_perm (l l' : list nat) :
  Permutation l l' -> list_sum l = list_sum l'.
Proof. unfold list_sum. induction 1; cbn [fold_right]; lia. Qed.

(** X19: the counts of the language distribution add up to the total
    number of queries. *)
Theorem show_summary_counts_total (py : runtime) (self : t) (now : Z)
        (v : summary) :
  fst (show_summary py self now) = Some v ->
  list_sum (map snd (language_distribution v)) = total_queries v.
Proof.
  unfold show_summary. destruct (queries self) as [|q0 qs0] eqn:E; [discriminate|].
  rewrite <- E. cbn [fst]. intros H. injection H as <-.
  cbn [language_distribution total_queries].
  rewrite (list_sum_perm _ _ (Permutation_map snd (sorted_desc_perm _))).
  apply count_languages_sum.
Qed.

(** X21: the session duration shown is the [seconds] field of the time
    difference: it is always at least 0 and below 86400, and it is the
    number of whole seconds since the collector was created only during
    the first day; afterwards the days are dropped. *)
Theorem show_summary_duration (py : runtime) (self : t) (now : Z)
        (v : summary) :
  fst (show_summary py self now) = Some v ->
  let elapsed := ((now - start_time self) / 1000000)%Z in
  (0 <= session_duration v < 86400)%Z
  /\ session_duration v = (elapsed mod 86400)%Z
  /\ (session_duration v = elapsed <-> (0 <= elapsed < 86400)%Z).
Proof.
  unfold show_summary. destruct (queries self) as [|q0 qs0]; [discriminate|].
  cbn [fst]. intros H. injection H as <-. cbv zeta.
  cbn [session_duration]. unfold timedelta_seconds.
  pose proof (Z.mod_pos_bound ((now - start_time self) / 1000000) 86400) as Hb.
  split; [lia|]. split; [reflexivity|]. split.
  - intros E. rewrite <- E. lia.
  - intros Hr. now apply Z.mod_small.
Qed.

End MetricsExtras.

(** ** Startup probe: when the preferred model is kept *)

Lemma mem_ext (a b : list pystr) :
  (forall x, In x a <-> In x b) -> forall x, mem x a = mem x b.
Proof.
  intros H x. destruct (mem x a) eqn:Ea, (mem x b) eqn:Eb; try reflexivity.
  - apply mem_In, H, mem_In in Ea. congruence.
  - apply mem_In, H, mem_In in Eb. congruence.
Qed.

(** X22: the probe returns the preferred model exactly when the listing
    was answered with a status other than 200, or with status 200 and a
    listing that contains the preferred model. *)
Theorem get_active_model_preferred (probe : get_outcome) :
  get_active_model probe = MODEL <->
  exists status ids,
    probe = GetResponse status ids
    /\ (status <> 200%Z
        \/ exists available, ids = Val available /\ In MODEL available).
Proof.
  assert (H0 : FALLBACK_MODELS_0 <> MODEL).
  { intros E. apply MODEL_not_fallback. rewrite <- E. exact FALLBACK_MODELS_0_in. }
  split.
  - intros E. destruct probe as [e|status [available|e]].
    + now destruct H0.
    + exists status, (Val available). split; [reflexivity|].
      destruct (Z.eq_dec status 200) as [->|Hs]; [right | now left].
      exists available. split; [reflexivity|].
      unfold get_active_model in E. cbn [Z.eqb Pos.eqb negb] in E.
      destruct (mem MODEL available) eqn:Hm; [now apply mem_In|].
      destruct (first_available available) as [fb|] eqn:Ef.
      * apply first_available_in in Ef. rewrite E in Ef.
        now destruct (MODEL_not_fallback Ef).
      * now destruct H0.
    + exists status, (Exc e). split; [reflexivity|].
      destruct (Z.eq_dec status 200) as [->|Hs]; [|now left].
      now destruct H0.
  - intros (status & ids & -> & [Hs|(available & -> & Hin)]).
    + unfold get_active_model. apply Z.eqb_neq in Hs. now rewrite Hs.
    + unfold get_active_model. destruct (negb (status =? 200)%Z); [reflexivity|].
      apply mem_In in Hin. now rewrite Hin.
Qed.

(** X23: the probe looks at the listing as a set: two listings with the
    same models give the same result, in whatever order and however often
    they name them; the order that counts is that of the fallback list. *)
Theorem get_active_model_listing_order (status : Z) (a b : list pystr) :
  (forall x, In x a <-> In x b) ->
  get_active_model (GetResponse status (Val a))
  = get_active_model (GetResponse status (Val b)).
Proof.
  intros H. unfold get_active_model, first_available.
  rewrite (mem_ext a b H MODEL).
  assert (E : find (fun fb => mem fb a) FALLBACK_MODELS
              = find (fun fb => mem fb b) FALLBACK_MODELS).
  { induction FALLBACK_MODELS as [|x l IH]; [reflexivity|].
    cbn [find]. now rewrite (mem_ext a b H x), IH. }
  now rewrite E.
Qed.

Lemma get_active_model_listing_order_witness :
  get_active_model
    (GetResponse 200 (Val [lit "gemma2-9b-it"; lit "llama3-70b-8192"]))
  = get_active_model
      (GetResponse 200 (Val [lit "llama3-70b-8192"; lit "gemma2-9b-it";
                             lit "llama3-70b-8192"])).
Proof.
  apply get_active_model_listing_order. intros x. simpl. tauto.
Defined.

Lemma get_active_model_preferred_witness :
  get_active_model (GetResponse 429 (Exc (OtherException []))) = MODEL.
Proof.
  apply (proj2 (get_active_model_preferred
                  (GetResponse 429 (Exc (OtherException []))))).
  exists 429%Z, (Exc (OtherException [])). split; [reflexivity|].
  left. discriminate.
Defined.

(** ** Runs of the further properties *)

Lemma net_model_retired_readable : readable net_model_retired.
Proof.
  intros n p. unfold net_model_retired.
  destruct (eqb (model p) MODEL); cbn; split; intros; discriminate.
Qed.

Lemma call_groq_api_requests_witness :
  exists k j,
    sent (snd (call_groq_api net_model_retired [] 500 fresh_world))
      = sent fresh_world ++ repeat (new_payload MODEL [] 500) k
        ++ repeat (new_payload FALLBACK_MODELS_0 [] 500) j
    /\ (1 <= k)%nat /\ (k + j <= 3)%nat
    /\ ((1 <= j)%nat ->
        ACTIVE_MODEL (snd (call_groq_api net_model_retired [] 500 fresh_world))
        = FALLBACK_MODELS_0).
Proof.
  exact (call_groq_api_requests net_model_retired [] 500 fresh_world).
Defined.

Lemma call_groq_api_returns_witness :
  exists text,
    fst (call_groq_api net_model_retired [] 500 fresh_world) = Val text.
Proof.
  exact (call_groq_api_returns net_model_retired [] 500 fresh_world
           net_model_retired_readable).
Defined.

Lemma call_groq_api_recovers_witness :
  call_groq_api net_flaky [] 500 fresh_world =
    (Val (lit "Hello, how can I help?"),
     {| ACTIVE_MODEL := MODEL;
        sent := repeat (new_payload MODEL [] 500) 3 |}).
Proof.
  refine (call_groq_api_recovers net_flaky [] 500 fresh_world 2
            {| status_code := 200;
               choice_content := Val (lit "Hello, how can I help?  ");
               error_message := Val [] |}
            (lit "Hello, how can I help?  ") _ _ eq_refl eq_refl eq_refl).
  - lia.
  - intros i Hi. exists (lit "Read timed out.").
    destruct i as [|[|i]]; [reflexivity | reflexivity | lia].
Defined.

Lemma call_groq_api_error_not_retried_witness :
  call_groq_api net_unavailable [] 500 fresh_world =
    (Val (lit "API Error: 500"),
     {| ACTIVE_MODEL := MODEL; sent := [new_payload MODEL [] 500] |}).
Proof.
  refine (call_groq_api_error_not_retried net_unavailable [] 500 fresh_world 0
            {| status_code := 500;
               choice_content := Exc (OtherException (lit "choices"));
               error_message := Val (lit "Internal Server Error") |}
            _ _ eq_refl _ _).
  - lia.
  - intros i Hi. lia.
  - discriminate.
  - discriminate.
Defined.

Lemma translate_to_english_error_confidence_witness :
  error_text (lit "API Error: 500") /\ In 75 [65; 75; 80].
Proof.
  destruct (translate_to_english_error_confidence
              net_unavailable ascii_lower ascii_upper
              (lit "Donde esta mi pedido") (lit "es") fresh_world
              (posted fresh_world
                 (new_payload MODEL
                    (translation_messages (lit "Donde esta mi pedido") (lit "Spanish"))
                    300))
              (lit "API Error: 500") 75
              ascii_lower_Error)
    as [(i & q & r & body & _ & _ & _ & Hnet & Hs & _)|H].
  - intros E. apply eqb_eq in E. vm_compute in E. discriminate.
  - reflexivity.
  - unfold net_unavailable in Hnet. injection Hnet as <-. discriminate.
  - exact H.
Defined.

(** A run of the pipeline on a Spanish query against the service that has
    retired the preferred model: three requests, one record. *)
Lemma process_query_logs_witness :
  exists lang_code,
    lang_code = lit "es"
    /\ TranslationMetrics.queries
         (snd (process_query (fun _ => Val (lit "es")) net_model_retired
                 ascii_lower ascii_upper 0 1500000 (lit "2025-11-04 10:00:00")
                 (lit "Donde esta mi pedido") fresh_world
                 (TranslationMetrics.init 0)))
       = [ {| TranslationMetrics.timestamp := lit "2025-11-04 10:00:00";
              TranslationMetrics.language := lit "Spanish";
              TranslationMetrics.original := lit "Donde esta mi pedido";
              TranslationMetrics.translation := lit "Where is my order?";
              TranslationMetrics.confidence := 90;
              TranslationMetrics.response_time := total_seconds 1500000 |} ].
Proof.
  pose (out := process_query (fun _ => Val (lit "es")) net_model_retired
                 ascii_lower ascii_upper 0 1500000 (lit "2025-11-04 10:00:00")
                 (lit "Donde esta mi pedido") fresh_world
                 (TranslationMetrics.init 0)).
  destruct (process_query_logs (fun _ => Val (lit "es")) net_model_retired
              ascii_lower ascii_upper 0 1500000 (lit "2025-11-04 10:00:00")
              (lit "Donde esta mi pedido") fresh_world (snd (fst out))
              (TranslationMetrics.init 0) (snd out)
              {| QueryResult.original := lit "Donde esta mi pedido";
                 QueryResult.language := lit "Spanish";
                 QueryResult.english := lit "Where is my order?";
                 QueryResult.confidence := 90;
                 QueryResult.response := lit "Where is my order?";
                 QueryResult.time := total_seconds 1500000 |}
              eq_refl) as (lang_code & Hd & _ & _ & _ & _ & Hq).
  exists lang_code. split.
  - now injection Hd as <-.
  - exact Hq.
Defined.

Lemma process_query_failure_witness :
  exists res,
    fst (fst (process_query (fun _ => Val (lit "es")) net_model_retired
                ascii_lower ascii_upper 0 1500000 (lit "2025-11-04 10:00:00")
                (lit "Donde esta mi pedido") fresh_world
                (TranslationMetrics.init 0)))
    = Val res.
Proof.
  exact (proj1 (process_query_failure (fun _ => Val (lit "es")) net_model_retired
                  ascii_lower ascii_upper 0 1500000 (lit "2025-11-04 10:00:00")
                  (lit "Donde esta mi pedido") fresh_world
                  (TranslationMetrics.init 0))
           net_model_retired_readable).
Defined.

Lemma process_query_requests_witness :
  exists for_translation for_reply,
    sent (snd (fst (process_query (fun _ => Val (lit "en")) net_flaky
                      ascii_lower ascii_upper 0 1500000 (lit "2025-11-04 10:00:00")
                      (lit "Where is my order?") fresh_world
                      (TranslationMetrics.init 0))))
      = for_translation ++ for_reply
    /\ for_translation = [] /\ (List.length for_reply <= 3)%nat.
Proof.
  destruct (process_query_requests (fun _ => Val (lit "en")) net_flaky
              ascii_lower ascii_upper 0 1500000 (lit "2025-11-04 10:00:00")
              (lit "Where is my order?") fresh_world
              (TranslationMetrics.init 0))
    as (ps & qs & Hs & _ & Hq & _ & _ & _ & Hen).
  exists ps, qs. split; [exact Hs|]. split; [|exact Hq].
  apply Hen. reflexivity.
Defined.

(** A response whose only word has 65 letters: an empty line, then the
    word; a row of the box is as wide as ever. *)
Lemma wrap_response_empty_line_witness :
  In [] (wrap_response (repeat 97%N 65)).
Proof.
  apply (proj2 (wrap_response_empty_line (repeat 97%N 65))).
  exists (repeat 97%N 65), []. split; [reflexivity|]. cbn. lia.
Defined.

Lemma wrap_response_width_witness :
  Forall (fun row => List.length row = 70%nat)
         (support_response_rows (repeat 97%N 65)).
Proof.
  apply (proj2 (wrap_response_width (repeat 97%N 65))).
  intros word [<-|[]]. cbn. lia.
Defined.

Lemma log_query_appends_witness :
  exists record,
    TranslationMetrics.queries
      (TranslationMetrics.log_query (TranslationMetrics.init 0) [] (lit "Hindi")
         (repeat 97%N 120) (lit "ok") 80 1)
    = [record]
    /\ List.length (TranslationMetrics.original record) = 100%nat
    /\ TranslationMetrics.translation record = lit "ok".
Proof.
  destruct (log_query_appends TranslationMetrics.CPython311
              (TranslationMetrics.init 0) [] (lit "Hindi")
              (repeat 97%N 120) (lit "ok") 80 1 0)
    as (record & Hq & _ & _ & _ & _ & _ & Hlen & _ & _ & _ & Hshort & _).
  exists record. split; [exact Hq|]. split; [exact Hlen|].
  apply Hshort. cbn. lia.
Defined.

Lemma show_summary_counts_total_witness :
  exists v,
    fst (TranslationMetrics.show_summary TranslationMetrics.CPython311
           sample_metrics 42000000) = Some v
    /\ list_sum (map snd (TranslationMetrics.language_distribution v)) = 5%nat.
Proof.
  eexists. split; [reflexivity|].
  exact (show_summary_counts_total TranslationMetrics.CPython311
           sample_metrics 42000000 _ eq_refl).
Defined.

(** Twenty-five hours after the start the summary shows one hour. *)
Lemma show_summary_duration_witness :
  exists v,
    fst (TranslationMetrics.show_summary TranslationMetrics.CPython311
           sample_metrics 90000000000) = Some v
    /\ TranslationMetrics.session_duration v = 3600%Z.
Proof.
  eexists. split; [reflexivity|].
  exact (proj1 (proj2 (show_summary_duration TranslationMetrics.CPython311
                         sample_metrics 90000000000 _ eq_refl))).
Defined.

(** Against the service that has retired the preferred model, the text
    returned is the content of the answer to the second request. *)
Lemma call_groq_api_result_witness :
  (exists i q r body,
      (i < 3)%nat
      /\ nth_error (sent (snd (call_groq_api net_model_retired [] 500 fresh_world)))
                   (List.length (sent fresh_world) + i) = Some q
      /\ List.length (sent (snd (call_groq_api net_model_retired [] 500 fresh_world)))
         = (List.length (sent fresh_world) + S i)%nat
      /\ net_model_retired (List.length (sent fresh_world) + i)%nat q
         = PostResponse r
      /\ status_code r = 200%Z /\ choice_content r = Val body
      /\ lit "Where is my order?" = strip body)
  \/ error_text (lit "Where is my order?").
Proof.
  exact (call_groq_api_result net_model_retired [] 500 fresh_world).
Defined.
